(** * spamprobe.py: a shallow embedding of the Bayesian spam filter

    The development follows [spamprobe.py]: the tokenizer [_text_parse], the
    HTML handlers of [_MyHTMLParser], the feature extractor [_process_mail],
    the learner [learn], the scorer [probe] and the commands [cmd_dump],
    [cmd_cleanup], [cmd_probe] and [cmd_learn].

    - Python [int] is [Z]; Python [float] is an IEEE 754 binary64 number,
      taken from the Standard Library's executable specification
      [SpecFloat] at precision 53 and maximal exponent 1024.
    - Python [str] is [string], a character being a code point below 256.
    - The two stores ([words_db], [msg_db]) are finite maps with string keys.
    - A raised exception is a value of [exn]; a function that can raise
      returns a [result]; [learn], which also mutates the stores, returns
      its outcome together with the stores as they are when it stops. *)

From Stdlib Require Import ZArith String Ascii List Lia.
From Stdlib Require Import Sorting.Permutation Sorting.Sorted.
From Stdlib Require Import Floats.SpecFloat.
From stdpp Require Import gmap strings list fin_maps.

Local Open Scope string_scope.
Local Open Scope list_scope.
Local Open Scope Z_scope.

(** ** Exceptions and results *)

Inductive exn : Type :=
  | NameError (name : string)
  | TypeError
  | KeyError
  | ZeroDivisionError
  | OverflowError.

Inductive result (A : Type) : Type :=
  | Return (a : A)
  | Raise (e : exn).
Arguments Return {A} a.
Arguments Raise {A} e.

#[global] Instance result_ret : MRet result := @Return.
#[global] Instance result_bind : MBind result := fun A B f r =>
  match r with
  | Return a => f a
  | Raise e => Raise e
  end.

Definition raises {A : Type} (r : result A) : Prop :=
  match r with
  | Return _ => False
  | Raise _ => True
  end.

(** ** Python numbers *)

Module Float.

Definition prec : Z := 53.
Definition emax : Z := 1024.

Definition float : Type := spec_float.

Definition add : float -> float -> float := SFadd prec emax.
Definition sub : float -> float -> float := SFsub prec emax.
Definition mul : float -> float -> float := SFmul prec emax.
Definition ltb : float -> float -> bool := SFltb.
Definition eqb : float -> float -> bool := SFeqb.

(** An integer that is exactly representable, as a float. *)
Definition of_Z (z : Z) : float := binary_normalize prec emax z 0 false.

Definition zero : float := S754_zero false.
Definition one : float := of_Z 1.

(** A decimal literal [n / d] denotes the binary64 number nearest to it,
    the correctly rounded quotient of two exactly representable integers. *)
Definition literal (n d : Z) : float := SFdiv prec emax (of_Z n) (of_Z d).

Definition lit_0_5 : float := literal 5 10.
Definition lit_0_99999 : float := literal 99999 100000.
Definition lit_0_00001 : float := literal 1 100000.

(** [int / int]: true division of integers. It raises on a zero divisor,
    gives a signed zero for a zero dividend, and otherwise the correctly
    rounded quotient, raising when that is beyond the range of a float. *)
Definition int_truediv (a b : Z) : result float :=
  if b =? 0 then Raise ZeroDivisionError
  else if a =? 0 then Return (S754_zero (b <? 0))
  else
    match SFdiv prec emax
            (S754_finite (a <? 0) (Z.to_pos (Z.abs a)) 0)
            (S754_finite (b <? 0) (Z.to_pos (Z.abs b)) 0) with
    | S754_infinity _ => Raise OverflowError
    | q => Return q
    end.

(** [float / float] raises on a divisor equal to zero (of either sign). *)
Definition truediv (x y : float) : result float :=
  if eqb y zero then Raise ZeroDivisionError
  else Return (SFdiv prec emax x y).

(** The builtins [min(a, b)] and [max(a, b)] keep their first argument
    unless the second is strictly smaller (resp. strictly greater). *)
Definition min (a b : float) : float := if ltb b a then b else a.
Definition max (a b : float) : float := if ltb a b then b else a.

Definition is_nan (x : float) : bool :=
  match x with
  | S754_nan => true
  | _ => false
  end.

End Float.

Abbreviation float := Float.float.

(** ** Python lists: stable sort by key and slices *)

Section PyList.
Context {A : Type}.

(** [l.sort(key=key)] is a stable sort that compares keys with [<] only.
    [insert_sorted x l] puts [x], which came before every element of [l],
    in front of the first element whose key is not smaller than its own. *)
Fixpoint insert_sorted (key : A -> float) (x : A) (l : list A) : list A :=
  match l with
  | [] => [x]
  | y :: l' =>
      if Float.ltb (key y) (key x) then y :: insert_sorted key x l'
      else x :: y :: l'
  end.

Fixpoint sort_by (key : A -> float) (l : list A) : list A :=
  match l with
  | [] => []
  | x :: l' => insert_sorted key x (sort_by key l')
  end.

(** The bound of a slice: a negative index counts from the end, and
    every index is clipped to the list. *)
Definition slice_index (i : Z) (l : list A) : nat :=
  let n := Z.of_nat (length l) in
  Z.to_nat (if i <? 0 then Z.max (n + i) 0 else Z.min i n).

(** [l[i:]] *)
Definition slice_from (i : Z) (l : list A) : list A :=
  drop (slice_index i l) l.

(** [l[:j]] *)
Definition slice_to (j : Z) (l : list A) : list A :=
  take (slice_index j l) l.

End PyList.

(** ** The tokenizer *)

(** [\w] on a [str] pattern: a character that is alphanumeric in the
    Unicode sense, or the underscore. Below 256 the alphanumeric characters
    are the ASCII letters and digits, the two ordinal indicators, the
    superscript digits, the micro sign, the three vulgar fractions and the
    Latin-1 letters (all of 192 to 255 but the two operators 215 and 247). *)
Definition is_word_char (c : ascii) : bool :=
  let n := N_of_ascii c in
  ((48 <=? n) && (n <=? 57) || (65 <=? n) && (n <=? 90) || (n =? 95)
   || (97 <=? n) && (n <=? 122)
   || (n =? 170) || (n =? 178) || (n =? 179) || (n =? 181) || (n =? 185)
   || (n =? 186) || (188 <=? n) && (n <=? 190)
   || (192 <=? n) && (n <=? 214) || (216 <=? n) && (n <=? 246)
   || (248 <=? n))%N.

(** [re.split(r"\W+", text)]: the text is cut at every maximal run of
    non-word characters. [cur] is the piece being read, [in_sep] tells
    that the previous character belonged to a separator. A separator at
    the very start or the very end leaves an empty piece there. *)
Fixpoint re_split_aux (in_sep : bool) (cur : string) (text : string)
  : list string :=
  match text with
  | EmptyString => [cur]
  | String c rest =>
      if is_word_char c then re_split_aux false (cur +:+ String c "") rest
      else if in_sep then re_split_aux true cur rest
      else cur :: re_split_aux true "" rest
  end.

Definition re_split_W (text : string) : list string :=
  re_split_aux false "" text.

(** [[i for i in re.split(r"\W+", text) if len(i) > 3]] *)
Definition _text_parse (text : string) : list string :=
  filter (fun i => 3 < Z.of_nat (String.length i)) (re_split_W text).

(** [_text_parse] on a value that may be [None]: [re.split] raises
    [TypeError] when it is not given a string. *)
Definition _text_parse_opt (text : option string) : result (list string) :=
  match text with
  | Some s => Return (_text_parse s)
  | None => Raise TypeError
  end.

(** ** Messages *)

(** What [part.get_content()] returns: a [str], or [bytes] still to be
    decoded. *)
Inductive content : Type :=
  | Str (s : string)
  | Bytes (b : string).

Record part : Type := {
  get_content_type : string;
  get_content : content;
  get_charset : option string
}.

(** A parsed message: the parts [mail.walk()] goes through, the header
    fields [mail.items()] in order, and the value of
    [mail["Date"].datetime.astimezone().hour] ([None] when evaluating it
    raises, whatever the reason). *)
Record EmailMessage : Type := {
  walk : list part;
  items : list (string * string);
  date_hour : option Z
}.

(** [str.lower] on one character. *)
Definition lower_char (c : ascii) : ascii :=
  let n := N_of_ascii c in
  if ((65 <=? n) && (n <=? 90)
      || (192 <=? n) && (n <=? 222) && negb (n =? 215))%N
  then ascii_of_N (n + 32) else c.

Fixpoint lower (s : string) : string :=
  match s with
  | EmptyString => EmptyString
  | String c s' => String (lower_char c) (lower s')
  end.

(** [mail.get(name)], also [mail[name]]: the value of the first field of
    that name, names compared without regard to case. *)
Fixpoint header_get (name : string) (fields : list (string * string))
  : option string :=
  match fields with
  | [] => None
  | (k, v) :: fields' =>
      if String.eqb (lower k) (lower name) then Some v
      else header_get name fields'
  end.

(** ["%s" % v] for a header value that may be [None]. *)
Definition format_s (v : option string) : string :=
  match v with
  | Some s => s
  | None => "None"
  end.

(** The events [HTMLParser.feed] and [close] hand to the handlers. *)
Inductive html_event : Type :=
  | StartTag (tag : string) (attrs : list (string * option string))
  | EndTag (tag : string)
  | Data (data : string).

(** The fields of [_MyHTMLParser]. *)
Record parser_state : Type := {
  words : list string;
  ignore : Z
}.

Definition is_script_or_template (tag : string) : bool :=
  String.eqb tag "script" || String.eqb tag "template".

(** The loop over [attrs] in [handle_starttag]. *)
Fixpoint img_alt_words (attrs : list (string * option string))
    (ws : list string) : result (list string) :=
  match attrs with
  | [] => Return ws
  | (n, v) :: attrs' =>
      if String.eqb n "alt" then
        alt ← _text_parse_opt v;
        img_alt_words attrs' (ws ++ alt)
      else img_alt_words attrs' ws
  end.

Definition handle_starttag (self : parser_state) (tag : string)
    (attrs : list (string * option string)) : result parser_state :=
  let ignore1 :=
    if is_script_or_template tag then ignore self + 1 else ignore self in
  if String.eqb tag "img" then
    ws ← img_alt_words attrs (words self);
    Return {| words := ws; ignore := ignore1 |}
  else Return {| words := words self; ignore := ignore1 |}.

Definition handle_endtag (self : parser_state) (tag : string)
  : parser_state :=
  if is_script_or_template tag
  then {| words := words self; ignore := ignore self - 1 |}
  else self.

Definition handle_data (self : parser_state) (data : string)
  : parser_state :=
  if ignore self =? 0
  then {| words := words self ++ _text_parse data; ignore := ignore self |}
  else self.

Fixpoint feed (self : parser_state) (events : list html_event)
  : result parser_state :=
  match events with
  | [] => Return self
  | StartTag tag attrs :: events' =>
      self' ← handle_starttag self tag attrs;
      feed self' events'
  | EndTag tag :: events' => feed (handle_endtag self tag) events'
  | Data data :: events' => feed (handle_data self data) events'
  end.

(** [k.startswith("X-")] *)
Definition startswith_X (k : string) : bool :=
  match k with
  | String "X" (String "-" _) => true
  | _ => false
  end.

Definition is_subject_from_reply_to (k : string) : bool :=
  String.eqb k "Subject" || String.eqb k "From" || String.eqb k "Reply-To".

(** The loop over [mail.items()] in [_process_mail]. *)
Fixpoint header_words (fields : list (string * string)) (ws : list string)
  : list string :=
  match fields with
  | [] => ws
  | (k, v) :: fields' =>
      let ws1 :=
        if is_subject_from_reply_to k then ws ++ _text_parse v else ws in
      let ws2 :=
        if startswith_X k then (ws1 ++ _text_parse v) ++ [k] else ws1 in
      header_words fields' ws2
  end.

Definition date_word (h : Z) : string :=
  if h <? 8 then "Date*overnight"
  else if (8 <=? h) && (h <? 17) then "Date*business"
  else "Date*evening".

(** Every name the file binds in the module's namespace: the imports, the
    class, the functions, and the names bound under
    [if __name__ == '__main__']. None of [today] and [cleanup] is among
    them; neither is a builtin, nor a local name of the function that
    calls it. *)
Definition module_names : list string :=
  [ "traceback"; "shelve"; "email"; "default"; "sys"; "os"; "datetime";
    "re"; "argparse"; "HTMLParser";
    "_MyHTMLParser"; "_html_parse"; "_today"; "_text_parse";
    "_process_mail"; "learn"; "probe";
    "cmd_dump"; "cmd_cleanup"; "cmd_probe"; "cmd_learn"; "get_files";
    "ap"; "subparsers"; "ap1"; "g"; "ap2"; "ap3"; "ap4"; "args";
    "words_db"; "msg_db" ].

(** Evaluating a global name: it is looked up when the expression runs,
    and an unbound name raises [NameError]. *)
Definition load_global (name : string) : result unit :=
  if bool_decide (name ∈ module_names) then Return tt
  else Raise (NameError name).

(** ** The stores *)

(** [words_db] maps a token to [(day, spam_no, ham_no)], [msg_db] maps a
    message identifier to [True] for spam and [False] for ham. *)
Record stores : Type := {
  words_db : gmap string (Z * Z * Z);
  msg_db : gmap string bool
}.

(** The first loop of [probe] (and of [cmd_dump]): one pass over the keys
    of [msg_db], counting the spam and the ham messages. The pair is
    [(spam_total, ham_total)]. *)
Definition totals (msg_db : gmap string bool) : Z * Z :=
  map_fold (fun _ (is_spam : bool) '(spam_total, ham_total) =>
              if is_spam then (spam_total + 1, ham_total)
              else (spam_total, ham_total + 1))
           (0, 0) msg_db.

(** What [cmd_probe] prints for a message: its score and whether it is
    above the threshold, or the traceback of an exception. *)
Inductive probe_outcome : Type :=
  | Scored (score : float) (is_spam : bool)
  | Failed (e : exn).

(** *** [cmd_dump] *)

(** A line of the dump, before it is formatted: the token, its spam count
    over the spam total and its ham count over the ham total. *)
Definition dump_row : Type := string * float * float.

(** The list comprehension of [cmd_dump]. [keys] is [words_db.keys()],
    in the order in which the store yields them. *)
Fixpoint dump_rows (words_db : gmap string (Z * Z * Z))
    (spam_total ham_total : Z) (keys : list string)
  : result (list dump_row) :=
  match keys with
  | [] => Return []
  | k :: keys' =>
      match words_db !! k with
      | None => Raise KeyError
      | Some (_, spam_no, ham_no) =>
          a ← Float.int_truediv spam_no spam_total;
          b ← Float.int_truediv ham_no ham_total;
          l ← dump_rows words_db spam_total ham_total keys';
          Return ((k, a, b) :: l)
      end
  end.

(** The key of the sort in [cmd_dump]: [n[1] - n[2]]. *)
Definition dump_key (n : dump_row) : float :=
  let '(_, a, b) := n in Float.sub a b.

(** [cmd_dump]: the rows printed before the empty line, [l[:n.words]],
    and those printed after it, [l[-n.words:]]. Nothing is printed when
    the comprehension raises. *)
Definition cmd_dump (n_words : Z) (keys : list string) (db : stores)
  : result (list dump_row * list dump_row) :=
  let '(spam_total, ham_total) := totals (msg_db db) in
  l ← dump_rows (words_db db) spam_total ham_total keys;
  let l := sort_by dump_key l in
  Return (slice_to n_words l, slice_from (- n_words) l).

(** ** The program *)

Section SpamProbe.

(** [str(b, charset, "ignore")], the decoding done by the codecs. *)
Variable decode : string -> string -> string.

(** The events [html.parser.HTMLParser] produces for a document. *)
Variable html_events : string -> list html_event.

(** [datetime.date.today().toordinal()] *)
Variable today_ordinal : Z.

Definition _html_parse (html : string) : result (list string) :=
  parser ← feed {| words := []; ignore := 0 |} (html_events html);
  Return (words parser).

Definition _today : Z := today_ordinal.

(** The content of a part as a [str]: [bytes] are decoded with the
    charset of the part, or with ["us-ascii"]. *)
Definition part_text (p : part) : string :=
  match get_content p with
  | Str s => s
  | Bytes b =>
      let c :=
        match get_charset p with
        | Some (String a c') => String a c'
        | _ => "us-ascii"
        end in
      decode c b
  end.

(** The loop over [mail.walk()]: the last part of each type is kept. *)
Fixpoint walk_parts (parts : list part) (html plain : option string)
  : option string * option string :=
  match parts with
  | [] => (html, plain)
  | p :: parts' =>
      if String.eqb (get_content_type p) "text/html"
      then walk_parts parts' (Some (part_text p)) plain
      else if String.eqb (get_content_type p) "text/plain"
      then walk_parts parts' html (Some (part_text p))
      else walk_parts parts' html plain
  end.

(** [_process_mail(mail)]: [html and plain is None] holds for an HTML
    body that is not empty; otherwise [plain], which can be [None], goes
    to [_text_parse]. *)
Definition _process_mail (mail : EmailMessage) : result (list string) :=
  let '(html, plain) := walk_parts (walk mail) None None in
  match html, plain with
  | None, None => Return []
  | _, _ =>
      ws ← match html, plain with
           | Some (String a html'), None => _html_parse (String a html')
           | _, _ => _text_parse_opt plain
           end;
      let ws := header_words (items mail) ws in
      Return match date_hour mail with
             | Some h => ws ++ [date_word h]
             | None => ws
             end
  end.

(** *** [learn] *)

Definition message_id (mail : EmailMessage) : string :=
  match header_get "Message-ID" (items mail) with
  | Some msg_id => msg_id
  | None =>
      format_s (header_get "Date" (items mail)) +:+ "/"
        +:+ format_s (header_get "From" (items mail))
  end.

(** The body of the loop of [learn] for one token. [prev_spam] is read
    only when [previous] holds. In [(today(), spam_no, ham_no)] the name
    [today] is looked up first, before anything is written; the day is
    the one of the module's day function, [_today]. *)
Definition learn_word (previous prev_spam spam : bool)
    (db : gmap string (Z * Z * Z)) (w : string)
  : result (gmap string (Z * Z * Z)) :=
  let '(spam_no, ham_no) :=
    match db !! w with
    | Some (_, spam_no, ham_no) =>
        if previous then
          if prev_spam then (Z.max 0 (spam_no - 1), ham_no)
          else (spam_no, Z.max 0 (ham_no - 1))
        else (spam_no, ham_no)
    | None => (0, 0)
    end in
  let '(spam_no, ham_no) :=
    if spam then (spam_no + 1, ham_no) else (spam_no, ham_no + 1) in
  _ ← load_global "today";
  Return (<[w := (_today, spam_no, ham_no)]> db).

(** The loop of [learn]: it stops at the first token that raises, and
    the store keeps what has been written until then. *)
Fixpoint learn_words (previous prev_spam spam : bool) (ws : list string)
    (db : gmap string (Z * Z * Z))
  : result unit * gmap string (Z * Z * Z) :=
  match ws with
  | [] => (Return tt, db)
  | w :: ws' =>
      match learn_word previous prev_spam spam db w with
      | Return db' => learn_words previous prev_spam spam ws' db'
      | Raise e => (Raise e, db)
      end
  end.

Definition learn_tokens (previous prev_spam spam : bool)
    (mail : EmailMessage) (db : stores) : result unit * stores :=
  match _process_mail mail with
  | Raise e => (Raise e, db)
  | Return ws =>
      let '(r, words_db') :=
        learn_words previous prev_spam spam ws (words_db db) in
      (r, {| words_db := words_db'; msg_db := msg_db db |})
  end.

(** [learn(words_db, msg_db, mail, spam)]. The ledger is written before
    it is read back into [prev_spam]; for a new message [prev_spam] is
    unbound and never read. *)
Definition learn (db : stores) (mail : EmailMessage) (spam : bool)
  : result unit * stores :=
  let msg_id := message_id mail in
  let previous := bool_decide (is_Some (msg_db db !! msg_id)) in
  let db1 :=
    {| words_db := words_db db; msg_db := <[msg_id := spam]> (msg_db db) |} in
  if previous then
    match msg_db db1 !! msg_id with
    | None => (Raise KeyError, db1)
    | Some prev_spam =>
        if Bool.eqb prev_spam spam then (Return tt, db1)
        else learn_tokens true prev_spam spam mail db1
    end
  else learn_tokens false false spam mail db1.

(** *** [probe] *)

(** The probability computed for a token of the store. *)
Definition word_probability (spam_no ham_no spam_total ham_total : Z)
  : result float :=
  pr_w_s ← Float.int_truediv spam_no spam_total;
  pr_w_h ← Float.int_truediv ham_no ham_total;
  pr_s_w ← Float.truediv pr_w_s (Float.add pr_w_h pr_w_s);
  let pr_s_w := Float.min Float.lit_0_99999 pr_s_w in
  let pr_s_w := Float.max Float.lit_0_00001 pr_s_w in
  Return pr_s_w.

(** The loop over the tokens of the message, which fills [all_p]. *)
Fixpoint collect (words_db : gmap string (Z * Z * Z))
    (spam_total ham_total : Z) (ws : list string) (all_p : list float)
  : result (list float) :=
  match ws with
  | [] => Return all_p
  | w :: ws' =>
      match words_db !! w with
      | Some (_, spam_no, ham_no) =>
          pr_s_w ← word_probability spam_no ham_no spam_total ham_total;
          collect words_db spam_total ham_total ws' (all_p ++ [pr_s_w])
      | None => collect words_db spam_total ham_total ws' all_p
      end
  end.

(** The selection of the most extreme probabilities. *)
Definition select (max_words : Z) (all_p : list float) : list float :=
  if max_words * 2 <? Z.of_nat (length all_p) then
    let all_p := sort_by (fun n => Float.sub n Float.lit_0_5) all_p in
    slice_from (- max_words) all_p ++ slice_to max_words all_p
  else all_p.

(** The two products. [p1] and [p2] start as the integer [1], which the
    first multiplication by a float turns into [1.0]. *)
Definition products (all_p : list float) : float * float :=
  fold_left (fun '(p1, p2) p =>
               (Float.mul p1 p, Float.mul p2 (Float.sub Float.one p)))
            all_p (Float.one, Float.one).

(** [p1 / (p1 + p2)]; with no factor this is the integer division
    [1 / (1 + 1)], which gives the same float as [1.0 / (1.0 + 1.0)]. *)
Definition combine (all_p : list float) : result float :=
  let '(p1, p2) := products all_p in
  Float.truediv p1 (Float.add p1 p2).

(** [probe(words_db, msg_db, mail, max_words)] *)
Definition probe (db : stores) (mail : EmailMessage) (max_words : Z)
  : result float :=
  let '(spam_total, ham_total) := totals (msg_db db) in
  ws ← _process_mail mail;
  all_p ← collect (words_db db) spam_total ham_total ws [];
  combine (select max_words all_p).

(** *** [cmd_cleanup] *)

(** [cleanup(words_db)]: the call starts by evaluating the name
    [cleanup]; the arguments [days] and [count] of the command are not
    passed on. *)
Definition cmd_cleanup (db : stores) : result unit * stores :=
  (load_global "cleanup", db).

(** *** [cmd_learn] *)

(** [mails] are the messages that [get_files] yields. An exception of
    [learn] is caught and its traceback printed, and the loop goes on with
    the stores as [learn] left them. The result lists the exceptions
    caught, in order. *)
Fixpoint cmd_learn (spam : bool) (mails : list EmailMessage) (db : stores)
  : list exn * stores :=
  match mails with
  | [] => ([], db)
  | mail :: mails' =>
      let '(r, db1) := learn db mail spam in
      let '(caught, db2) := cmd_learn spam mails' db1 in
      (match r with
       | Return _ => caught
       | Raise e => e :: caught
       end, db2)
  end.

(** *** [cmd_probe] *)

(** The loop of [cmd_probe] over the messages that [get_files] yields.
    [probe] is called without [max_words], so with its default, 20. A
    score above the threshold counts as spam, any other as ham; an
    exception of [probe] is caught and counts as neither. The result is
    what is printed for each message, and the two counters. *)
Fixpoint cmd_probe_loop (threshold : float) (db : stores)
    (mails : list EmailMessage) (n_spams n_hams : Z)
  : list probe_outcome * Z * Z :=
  match mails with
  | [] => ([], n_spams, n_hams)
  | mail :: mails' =>
      match probe db mail 20 with
      | Raise e =>
          let '(out, s, h) :=
            cmd_probe_loop threshold db mails' n_spams n_hams in
          (Failed e :: out, s, h)
      | Return score =>
          if Float.ltb threshold score then
            let '(out, s, h) :=
              cmd_probe_loop threshold db mails' (n_spams + 1) n_hams in
            (Scored score true :: out, s, h)
          else
            let '(out, s, h) :=
              cmd_probe_loop threshold db mails' n_spams (n_hams + 1) in
            (Scored score false :: out, s, h)
      end
  end.

Definition cmd_probe (threshold : float) (mails : list EmailMessage)
    (db : stores) : list probe_outcome * Z * Z :=
  cmd_probe_loop threshold db mails 0 0.

End SpamProbe.

(** ** Definitions used to state the properties *)

(** *** The order of floats *)

(** A float that is not a NaN, as a point of [Z * Z * Z] ordered
    lexicographically: the class (negative infinite, negative, zero,
    positive, positive infinite), then the exponent and the mantissa. *)
Definition float_code (x : float) : Z * Z * Z :=
  match x with
  | S754_zero _ => (0, 0, 0)
  | S754_nan => (0, 0, 0)
  | S754_infinity s => (if s then -2 else 2, 0, 0)
  | S754_finite s m e => if s then (-1, - e, - Z.pos m) else (1, e, Z.pos m)
  end.

Definition lex_lt (a b : Z * Z * Z) : Prop :=
  let '(a1, a2, a3) := a in
  let '(b1, b2, b3) := b in
  a1 < b1 \/ a1 = b1 /\ (a2 < b2 \/ a2 = b2 /\ a3 < b3).

(** Neither a NaN nor an infinity. *)
Definition is_finite (x : float) : bool :=
  match x with
  | S754_zero _ | S754_finite _ _ _ => true
  | _ => false
  end.

Definition float_leb (x y : float) : bool := SFleb x y.

(** The key of the sort in [probe]. *)
Definition neutral_key (n : float) : float := Float.sub n Float.lit_0_5.

(** [a] comes before [b] in the order of the sort. *)
Definition key_le (a b : float) : Prop :=
  float_leb (neutral_key a) (neutral_key b) = true.

(** A probability as the clamp leaves it. *)
Definition clamped (p : float) : Prop :=
  p = Float.lit_0_00001 \/ p = Float.lit_0_99999
  \/ Float.ltb Float.lit_0_00001 p = true /\ Float.ltb p Float.lit_0_99999 = true.

(** *** The tokenizer as the specification words it *)

Fixpoint string_forall (P : ascii -> bool) (s : string) : bool :=
  match s with
  | EmptyString => true
  | String c s' => P c && string_forall P s'
  end.

Definition word_only (s : string) : Prop :=
  string_forall is_word_char s = true.

(** A separator: a run, not empty, of characters that are not word
    characters. *)
Definition separator (s : string) : Prop :=
  s <> "" /\ string_forall (fun c => negb (is_word_char c)) s = true.

(** [p0 s1 p1 ... sn pn] *)
Fixpoint interleave (pieces seps : list string) : string :=
  match pieces, seps with
  | p :: pieces', s :: seps' => p +:+ s +:+ interleave pieces' seps'
  | p :: _, [] => p
  | [], _ => ""
  end.

(** Every string of the list but the last one is not empty. *)
Fixpoint inner_nonempty (l : list string) : Prop :=
  match l with
  | [] => True
  | [_] => True
  | p :: l' => p <> "" /\ inner_nonempty l'
  end.

(** [pieces] is the text split on its runs of separator characters: the
    text is the pieces with a separator between each two; a piece holds
    word characters only, and only the first and the last can be empty,
    so that each separator is a maximal run. *)
Definition split_on_separators (text : string) (pieces : list string) : Prop :=
  exists seps,
    length pieces = S (length seps)
    /\ interleave pieces seps = text
    /\ Forall word_only pieces
    /\ Forall separator seps
    /\ inner_nonempty (tail pieces).

(** [splitWords] of the specification. *)
Definition splitWords_spec (text : string) (tokens : list string) : Prop :=
  exists pieces,
    split_on_separators text pieces
    /\ tokens = filter (fun p => 3 < Z.of_nat (String.length p)) pieces.

(** *** The events of a document *)

(** What an event adds to the counter [ignore]. *)
Definition ignore_delta (e : html_event) : Z :=
  match e with
  | StartTag tag _ => if is_script_or_template tag then 1 else 0
  | EndTag tag => if is_script_or_template tag then -1 else 0
  | Data _ => 0
  end.

Definition is_data (e : html_event) : bool :=
  match e with
  | Data _ => true
  | _ => false
  end.



(** An [alt] attribute without a value, as in [<img alt>]. *)
Definition has_bare_alt (attrs : list (string * option string)) : Prop :=
  ("alt", None) ∈ attrs.


(** *** The parts of a message *)

Definition is_html_part (p : part) : bool :=
  String.eqb (get_content_type p) "text/html".

Definition is_plain_part (p : part) : bool :=
  String.eqb (get_content_type p) "text/plain".

(** The token of the hour of the date, if there is one. *)
Definition date_words (mail : EmailMessage) : list string :=
  match date_hour mail with
  | Some h => [date_word h]
  | None => []
  end.

(** *** The ledger *)

(** One message of the given label, as a pair of totals. *)
Definition one_message (is_spam : bool) : Z * Z :=
  if is_spam then (1, 0) else (0, 1).

Definition add_totals (a b : Z * Z) : Z * Z :=
  (fst a + fst b, snd a + snd b).

(** A token is long enough to be kept by [_text_parse]. *)
Definition long_enough (i : string) : Prop := 3 < Z.of_nat (String.length i).

(** *** The outcomes of [cmd_probe] *)

Definition probe_outcome_of (threshold : float) (r : result float)
  : probe_outcome :=
  match r with
  | Return score => Scored score (Float.ltb threshold score)
  | Raise e => Failed e
  end.

Definition is_spam_outcome (o : probe_outcome) : bool :=
  match o with
  | Scored _ true => true
  | _ => false
  end.

Definition is_ham_outcome (o : probe_outcome) : bool :=
  match o with
  | Scored _ false => true
  | _ => false
  end.

Definition is_failure (o : probe_outcome) : bool :=
  match o with
  | Failed _ => true
  | _ => false
  end.

Definition count_outcomes (f : probe_outcome -> bool)
    (out : list probe_outcome) : Z :=
  Z.of_nat (length (filter (fun o => f o = true) out)).

(** *** The rows of [cmd_dump] *)

Definition row_token (n : dump_row) : string := fst (fst n).

(** Rows in the order of the sort of [cmd_dump]. *)
Definition dump_le (n1 n2 : dump_row) : Prop :=
  float_leb (dump_key n1) (dump_key n2) = true.

(** The row is the one of a token of the store, for the given totals. *)
Definition row_of_store (words_db : gmap string (Z * Z * Z))
    (spam_total ham_total : Z) (n : dump_row) : Prop :=
  let '(k, a, b) := n in
  exists day spam_no ham_no,
    words_db !! k = Some (day, spam_no, ham_no)
    /\ Float.int_truediv spam_no spam_total = Return a
    /\ Float.int_truediv ham_no ham_total = Return b.

(** ** Concrete stores and messages *)

Module Sample.

(** Bytes that are ASCII text decode to themselves. *)
Definition decode (charset b : string) : string := b.

(** A document without markup is one run of text. *)
Definition html_events (html : string) : list html_event := [Data html].

(** 1 January 2020. *)
Definition today_ordinal : Z := 737425.

(** A message with one plain-text part and the given header fields. *)
Definition plain_mail (fields : list (string * string)) (body : string)
  : EmailMessage :=
  {| walk := [ {| get_content_type := "text/plain";
                  get_content := Str body;
                  get_charset := None |} ];
     items := fields;
     date_hour := None |}.

Definition empty_stores : stores := {| words_db := ∅; msg_db := ∅ |}.

(** One spam and one ham message learnt. *)
Definition ledger_1_1 : gmap string bool :=
  <["<spam1@example.org>" := true]> (<["<ham1@example.org>" := false]> ∅).

Definition hello_mail : EmailMessage :=
  plain_mail [("Message-ID", "<m1@example.org>")] "Hello, world! foo".

(** [hello_mail] learnt as ham, as it would be stored. *)
Definition hello_ham : stores :=
  {| words_db := <["Hello" := (737424, 0, 1)]>
                   (<["world" := (737424, 0, 1)]> ∅);
     msg_db := <["<m1@example.org>" := false]> ledger_1_1 |}.

(** The store of the end-to-end example of the specification: ten spam
    and ten ham messages, and [viagra] seen in all ten spam ones. *)
Definition spam_ids : list string :=
  [ "<s0>"; "<s1>"; "<s2>"; "<s3>"; "<s4>";
    "<s5>"; "<s6>"; "<s7>"; "<s8>"; "<s9>" ].

Definition ham_ids : list string :=
  [ "<h0>"; "<h1>"; "<h2>"; "<h3>"; "<h4>";
    "<h5>"; "<h6>"; "<h7>"; "<h8>"; "<h9>" ].

Definition ledger_10_10 : gmap string bool :=
  list_to_map (map (fun i => (i, true)) spam_ids
               ++ map (fun i => (i, false)) ham_ids).

Definition viagra_stores : stores :=
  {| words_db := <["viagra" := (737424, 10, 0)]> ∅;
     msg_db := ledger_10_10 |}.

Definition viagra_mail : EmailMessage :=
  plain_mail [] "viagra".

Definition viagra4_mail : EmailMessage :=
  plain_mail [] "viagra viagra viagra viagra".

(** A token whose two counts are zero. *)
Definition zero_count_stores : stores :=
  {| words_db := <["Hello" := (737424, 0, 0)]> ∅;
     msg_db := ledger_1_1 |}.

(** A token seen three times in spam and once in ham. *)
Definition offer_stores : stores :=
  {| words_db := <["offer" := (737424, 3, 1)]> ∅;
     msg_db := ledger_1_1 |}.

Definition offer_mail : EmailMessage := plain_mail [] "offer".
Definition offer2_mail : EmailMessage := plain_mail [] "offer offer".

(** The same message with and without the repetition of a token that the
    store does not hold. *)
Definition offer_hello2_mail : EmailMessage :=
  plain_mail [] "offer hello hello".
Definition offer_hello_mail : EmailMessage := plain_mail [] "offer hello".

(** Tokens learnt while the ledger is empty. *)
Definition no_ledger_stores : stores :=
  {| words_db := <["Hello" := (737424, 1, 0)]> ∅; msg_db := ∅ |}.

(** Three tokens that lean to spam, to ham and to neither. *)
Definition mixed_stores : stores :=
  {| words_db := <["offer" := (737424, 3, 1)]>
                   (<["meeting" := (737424, 1, 3)]>
                      (<["hello" := (737424, 1, 1)]> ∅));
     msg_db := ledger_1_1 |}.

Definition mixed_tokens : list string := ["offer"; "meeting"; "hello"].

(** A message with an HTML body only, a subject, an [X-] field and a date
    in business hours, and the events of its body. *)
Definition newsletter_mail : EmailMessage :=
  {| walk := [ {| get_content_type := "multipart/alternative";
                  get_content := Str "";
                  get_charset := None |};
               {| get_content_type := "text/html";
                  get_content := Str "<p>Hello there</p>";
                  get_charset := None |} ];
     items := [ ("Subject", "Cheap pills today");
                ("X-Mailer", "BulkSender 2000");
                ("message-id", "<77@example.org>") ];
     date_hour := Some 9 |}.

Definition newsletter_events (html : string) : list html_event :=
  [ StartTag "p" []; Data "Hello there"; EndTag "p";
    StartTag "script" []; Data "hidden text"; EndTag "script";
    StartTag "img" [("src", Some "x.png"); ("alt", Some "nice picture")] ].

(** A message whose only body is an empty HTML part. *)
Definition empty_html_mail : EmailMessage :=
  {| walk := [ {| get_content_type := "text/html";
                  get_content := Str "";
                  get_charset := None |} ];
     items := [];
     date_hour := None |}.

(** A document that starts with an end tag that has no start tag. *)
Definition stray_end_events (html : string) : list html_event :=
  [ EndTag "script"; Data "Hello there" ].

(** A document with an image whose [alt] attribute has no value. *)
Definition bare_alt_events (html : string) : list html_event :=
  [ Data "Hello there";
    StartTag "img" [("src", Some "x.png"); ("alt", None)] ].

Definition fresh_parser : parser_state := {| words := []; ignore := 0 |}.

(** A message with no text part. *)
Definition no_body_mail : EmailMessage :=
  {| walk := [ {| get_content_type := "application/pdf";
                  get_content := Bytes "%PDF";
                  get_charset := None |} ];
     items := [("Subject", "Invoice attached")];
     date_hour := Some 20 |}.



(** A stale token seen once. *)
Definition stale_stores : stores :=
  {| words_db := <["stale" := (737000, 1, 0)]> ∅;
     msg_db := ledger_1_1 |}.

End Sample.

(** ** Name resolution *)

Lemma load_global_today : load_global "today" = Raise (NameError "today").
Proof. reflexivity. Qed.

Lemma load_global_cleanup : load_global "cleanup" = Raise (NameError "cleanup").
Proof. reflexivity. Qed.

Lemma load_global__today : load_global "_today" = Return tt.
Proof. reflexivity. Qed.

(** ** The feature extractor on two messages *)

Example process_mail_newsletter :
  _process_mail Sample.decode Sample.newsletter_events Sample.newsletter_mail
  = Return [ "Hello"; "there"; "nice"; "picture"; "Cheap"; "pills"; "today";
             "BulkSender"; "2000"; "X-Mailer"; "Date*business" ]
  /\ message_id Sample.newsletter_mail = "<77@example.org>".
Proof. split; reflexivity. Qed.

(** An empty HTML body is falsy: [_text_parse(None)] is called. *)
Example process_mail_empty_html :
  _process_mail Sample.decode Sample.html_events Sample.empty_html_mail
  = Raise TypeError
  /\ message_id Sample.empty_html_mail = "None/None".
Proof. split; reflexivity. Qed.

(** ** Facts about [learn] *)

Section LearnFacts.

Variable decode : string -> string -> string.
Variable html_events : string -> list html_event.
Variable today_ordinal : Z.


(** Whatever the token and the store, the body of the loop stops at the
    call of [today] and writes nothing. *)
Lemma learn_word_raises previous prev_spam spam db w :
  learn_word today_ordinal previous prev_spam spam db w
  = Raise (NameError "today").
Proof.
  unfold learn_word.
  destruct (db !! w) as [[[d s] h]|];
    repeat match goal with |- context [if ?b then _ else _] => destruct b end;
    reflexivity.
Qed.

Lemma learn_words_cons previous prev_spam spam w ws db :
  learn_words today_ordinal previous prev_spam spam (w :: ws) db
  = (Raise (NameError "today"), db).
Proof. cbn [learn_words]. by rewrite learn_word_raises. Qed.

Lemma learn_words_nil previous prev_spam spam db :
  learn_words today_ordinal previous prev_spam spam [] db = (Return tt, db).
Proof. reflexivity. Qed.

(** The loop never changes the token store. *)
Lemma learn_words_store previous prev_spam spam ws db :
  snd (learn_words today_ordinal previous prev_spam spam ws db) = db.
Proof. destruct ws; [done|]. by rewrite learn_words_cons. Qed.

(** [learn] on a message whose identifier the ledger does not hold. *)
Lemma learn_new db mail spam :
  msg_db db !! message_id mail = None ->
  learn decode html_events today_ordinal db mail spam
  = learn_tokens decode html_events today_ordinal false false spam mail
      {| words_db := words_db db;
         msg_db := <[message_id mail := spam]> (msg_db db) |}.
Proof.
  intros Hnew. unfold learn.
  rewrite bool_decide_eq_false_2; [done|].
  rewrite Hnew. by intros [? ?].
Qed.

(** [learn] on a message whose identifier the ledger holds: the label
    read back is the one just written, so the call returns at once. *)
Lemma learn_known db mail spam :
  is_Some (msg_db db !! message_id mail) ->
  learn decode html_events today_ordinal db mail spam
  = (Return tt,
     {| words_db := words_db db;
        msg_db := <[message_id mail := spam]> (msg_db db) |}).
Proof.
  intros Hold. unfold learn.
  rewrite bool_decide_eq_true_2; [|done].
  cbn [msg_db]. rewrite lookup_insert_eq.
  by rewrite Bool.eqb_reflx.
Qed.

(** The ledger is written first and nothing touches it afterwards. *)
Lemma learn_msg_db db mail spam :
  msg_db (snd (learn decode html_events today_ordinal db mail spam))
  = <[message_id mail := spam]> (msg_db db).
Proof.
  destruct (msg_db db !! message_id mail) as [b|] eqn:Hid.
  - by rewrite learn_known.
  - rewrite learn_new; [|done]. unfold learn_tokens.
    destruct (_process_mail _ _ _); [|done].
    by destruct (learn_words _ _ _ _ _ _).
Qed.

Lemma learn_words_db db mail spam :
  words_db (snd (learn decode html_events today_ordinal db mail spam)) = words_db db.
Proof.
  destruct (msg_db db !! message_id mail) as [b|] eqn:Hid.
  - by rewrite learn_known.
  - rewrite learn_new; [|done]. unfold learn_tokens.
    destruct (_process_mail _ _ _) as [ws|]; [|done].
    pose proof (learn_words_store false false spam ws (words_db db)) as Hs.
    by destruct (learn_words _ _ _ _ _ _).
Qed.

(** C1. The spec asks that [learn], on a new message with at least one
    token, completes and stores for each token a record with the count
    of the label incremented and the day of the call. The code does not:
    for every such message the loop reaches [today()], a name the module
    does not bind ([_today] is the function it defines), so [learn]
    raises [NameError] at the first token, after the ledger has been
    written and before any record is. *)
Theorem learn_new_message_raises db mail spam w ws :
  msg_db db !! message_id mail = None ->
  _process_mail decode html_events mail = Return (w :: ws) ->
  learn decode html_events today_ordinal db mail spam
  = (Raise (NameError "today"),
     {| words_db := words_db db;
        msg_db := <[message_id mail := spam]> (msg_db db) |}).
Proof.
  intros Hnew Hws. rewrite learn_new; [|done].
  unfold learn_tokens. rewrite Hws.
  by rewrite learn_words_cons.
Qed.

(** C2. The spec asks that relearning as spam a message the ledger holds
    as ham moves one count from ham to spam for each of its tokens. The
    code does not: [prev_spam] is read from the ledger after the new
    label has been written there, so it always equals [spam], and
    [learn] returns before the loop. The ledger shows the message as
    spam, and every token record is as it was. *)
Theorem learn_relabel_keeps_counts db mail :
  msg_db db !! message_id mail = Some false ->
  learn decode html_events today_ordinal db mail true
  = (Return tt,
     {| words_db := words_db db;
        msg_db := <[message_id mail := true]> (msg_db db) |}).
Proof. intros Hham. apply learn_known. by rewrite Hham. Qed.

(** C10. Whenever [learn] raises, the ledger it leaves is the one of the
    call with the identifier of the message mapped to the new label,
    written before the tokens were extracted and before any record was
    read or written; the token store it leaves is the store as the loop
    left it at the token that raised (or the initial one, when the
    extraction itself raised): nothing is undone. *)
Theorem learn_raise_keeps_ledger db mail spam e db' :
  learn decode html_events today_ordinal db mail spam = (Raise e, db') ->
  msg_db db' = <[message_id mail := spam]> (msg_db db)
  /\ msg_db db' !! message_id mail = Some spam
  /\ msg_db db !! message_id mail = None
  /\ (_process_mail decode html_events mail = Raise e /\ words_db db' = words_db db
      \/ exists ws,
           _process_mail decode html_events mail = Return ws
           /\ learn_words today_ordinal false false spam ws (words_db db)
              = (Raise e, words_db db')).
Proof.
  intros Hl.
  destruct (msg_db db !! message_id mail) as [b|] eqn:Hid.
  { rewrite learn_known in Hl; [|by rewrite Hid]. discriminate. }
  pose proof (learn_msg_db db mail spam) as Hm. rewrite Hl in Hm.
  cbn [snd] in Hm. rewrite Hm. split; [done|].
  split; [apply lookup_insert_eq|]. split; [done|].
  rewrite learn_new in Hl; [|done]. unfold learn_tokens in Hl.
  
  destruct (_process_mail decode html_events mail) as [ws|e0] eqn:Hws.
  - right. exists ws. split; [done|].
    destruct (learn_words _ _ _ _ _ _) as [r wdb].
    by inversion Hl.
  - left. by inversion Hl.
Qed.

(** C3. The spec describes [cleanup(tokenStore, maxAgeDays, minCount)].
    The file defines no [cleanup]: the command [cmd_cleanup] calls a
    name that is not bound, so it raises [NameError] and removes nothing
    from the token store, whatever it holds. *)
Theorem cmd_cleanup_raises db :
  cmd_cleanup db = (Raise (NameError "cleanup"), db).
Proof. reflexivity. Qed.

End LearnFacts.

(** ** Facts about [probe] *)

Lemma int_truediv_zero_divisor a : Float.int_truediv a 0 = Raise ZeroDivisionError.
Proof. reflexivity. Qed.

Lemma int_truediv_raise a b e :
  Float.int_truediv a b = Raise e -> e = ZeroDivisionError \/ e = OverflowError.
Proof.
  unfold Float.int_truediv.
  destruct (b =? 0); [intros [= <-]; by left|].
  destruct (a =? 0); [done|].
  destruct (SFdiv _ _ _ _); intros [= <-]; by right.
Qed.

Lemma int_truediv_zero_dividend b :
  0 < b -> Float.int_truediv 0 b = Return Float.zero.
Proof.
  intros Hb. unfold Float.int_truediv.
  rewrite (proj2 (Z.eqb_neq b 0)) by lia. cbn [Z.eqb].
  by rewrite (proj2 (Z.ltb_ge b 0)) by lia.
Qed.

Lemma truediv_raise x y e :
  Float.truediv x y = Raise e -> e = ZeroDivisionError.
Proof. unfold Float.truediv. by destruct (Float.eqb y Float.zero); intros [= <-]. Qed.

Lemma word_probability_raise spam_no ham_no spam_total ham_total e :
  word_probability spam_no ham_no spam_total ham_total = Raise e ->
  e = ZeroDivisionError \/ e = OverflowError.
Proof.
  unfold word_probability, mbind, result_bind.
  destruct (Float.int_truediv spam_no spam_total) as [pr_w_s|e1] eqn:H1;
    [|intros [= <-]; by eapply int_truediv_raise].
  destruct (Float.int_truediv ham_no ham_total) as [pr_w_h|e2] eqn:H2;
    [|intros [= <-]; by eapply int_truediv_raise].
  destruct (Float.truediv _ _) as [pr_s_w|e3] eqn:H3; [done|].
  intros [= <-]. left. by eapply truediv_raise.
Qed.

(** With a total equal to zero no token of the store gets a probability. *)
Lemma word_probability_zero_total spam_no ham_no spam_total ham_total :
  spam_total = 0 \/ ham_total = 0 ->
  word_probability spam_no ham_no spam_total ham_total = Raise ZeroDivisionError
  \/ spam_total <> 0
     /\ word_probability spam_no ham_no spam_total ham_total
        = Raise OverflowError.
Proof.
  intros Hz. unfold word_probability, mbind, result_bind.
  destruct (Z.eq_dec spam_total 0) as [->|Hs]; [by left|].
  destruct Hz as [?| ->]; [done|].
  destruct (Float.int_truediv spam_no spam_total) as [pr_w_s|e1] eqn:H1.
  - by left.
  - destruct (int_truediv_raise _ _ _ H1) as [-> | ->]; [by left|by right].
Qed.

(** A token whose two counts are zero: [0.0 / (0.0 + 0.0)]. *)
Lemma word_probability_zero_counts spam_total ham_total :
  0 < spam_total -> 0 < ham_total ->
  word_probability 0 0 spam_total ham_total = Raise ZeroDivisionError.
Proof.
  intros Hs Hh. unfold word_probability.
  by rewrite !int_truediv_zero_dividend.
Qed.

Section CollectFacts.

Variable words_db : gmap string (Z * Z * Z).
Variables spam_total ham_total : Z.

(** Tokens that the store does not hold leave [all_p] as it is. *)
Lemma collect_unknown ws all_p :
Forall (fun w => words_db !! w = None) ws ->
collect words_db spam_total ham_total ws all_p = Return all_p.
Proof.
intros Hws. revert all_p.
induction Hws as [|w ws Hw _ IH]; intros all_p; [done|].
cbn [collect]. rewrite Hw. apply IH.
Qed.

(** The loop only depends on the tokens that the store holds. *)
Lemma collect_filter ws all_p :
collect words_db spam_total ham_total ws all_p
= collect words_db spam_total ham_total
    (filter (fun w => is_Some (words_db !! w)) ws) all_p.
Proof.
revert all_p. induction ws as [|w ws IH]; intros all_p; [done|].
rewrite filter_cons. cbn [collect].
destruct (words_db !! w) as [[[d s] h]|] eqn:Hw.
- rewrite decide_True by done. cbn [collect]. rewrite Hw.
  destruct (word_probability s h spam_total ham_total); [apply IH|done].
- rewrite decide_False by (by intros [? ?]). apply IH.
Qed.

Lemma collect_raise ws all_p e :
collect words_db spam_total ham_total ws all_p = Raise e ->
e = ZeroDivisionError \/ e = OverflowError.
Proof.
revert all_p. induction ws as [|w ws IH]; intros all_p; [done|].
cbn [collect]. destruct (words_db !! w) as [[[d s] h]|]; [|apply IH].
destruct (word_probability s h spam_total ham_total) as [p|e'] eqn:Hp.
- apply IH.
- intros [= <-]. by eapply word_probability_raise.
Qed.

(** A token whose probability raises stops the loop, unless an earlier
  one already has. *)
Lemma collect_raises_at ws all_p w d s h :
w ∈ ws -> words_db !! w = Some (d, s, h) ->
raises (word_probability s h spam_total ham_total) ->
raises (collect words_db spam_total ham_total ws all_p).
Proof.
intros Hin Hw Hr. revert all_p.
induction ws as [|w' ws IH]; intros all_p; [by apply elem_of_nil in Hin|].
cbn [collect]. apply elem_of_cons in Hin as [<-|Hin].
- rewrite Hw. by destruct (word_probability s h spam_total ham_total).
- destruct (words_db !! w') as [[[d' s'] h']|]; [|by apply IH].
  destruct (word_probability s' h' spam_total ham_total); [by apply IH|done].
Qed.

Lemma collect_zero_total ws all_p :
spam_total = 0 \/ ham_total = 0 ->
Exists (fun w => is_Some (words_db !! w)) ws ->
collect words_db spam_total ham_total ws all_p = Raise ZeroDivisionError
\/ spam_total <> 0
   /\ collect words_db spam_total ham_total ws all_p = Raise OverflowError.
Proof.
intros Hz Hex. revert all_p.
induction Hex as [w ws [[[d s] h] Hw]|w ws _ IH]; intros all_p; cbn [collect].
- rewrite Hw.
  destruct (word_probability_zero_total s h _ _ Hz) as [-> | [? ->]];
    [by left|by right].
- destruct (words_db !! w) as [[[d s] h]|]; [|apply IH].
  destruct (word_probability_zero_total s h _ _ Hz) as [-> | [? ->]];
    [by left|by right].
Qed.

End CollectFacts.

Lemma select_nil max_words : select max_words [] = [].
Proof.
  unfold select. destruct (max_words * 2 <? _); [|done].
  unfold slice_from, slice_to. cbn [sort_by]. by rewrite drop_nil, take_nil.
Qed.

Lemma combine_nil : combine [] = Return Float.lit_0_5.
Proof. reflexivity. Qed.

Section ProbeFacts.

Variable decode : string -> string -> string.
Variable html_events : string -> list html_event.

Lemma probe_unfold db mail max_words ws :
_process_mail decode html_events mail = Return ws ->
probe decode html_events db mail max_words
= (all_p ← collect (words_db db) (fst (totals (msg_db db)))
             (snd (totals (msg_db db))) ws [];
   combine (select max_words all_p)).
Proof.
intros Hws. unfold probe. destruct (totals (msg_db db)) as [st ht].
by rewrite Hws.
Qed.

(** A message none of whose tokens is in the store scores one half. *)
Lemma probe_no_known_token db mail max_words ws :
_process_mail decode html_events mail = Return ws ->
Forall (fun w => words_db db !! w = None) ws ->
probe decode html_events db mail max_words = Return Float.lit_0_5.
Proof.
intros Hws Hun. rewrite (probe_unfold _ _ _ _ Hws).
rewrite collect_unknown by done. cbn. by rewrite select_nil.
Qed.

(** C4 as amended. [probe] has no test of the totals: against a ledger
  with no spam or no ham message it raises only when it comes to divide,
  at the first token of the message that the store holds
  ([ZeroDivisionError]; [OverflowError] if the spam total is not zero and
  the spam count of that token is beyond the range of a float). For a
  message none of whose tokens is in the store it returns 0.5. *)
Theorem probe_zero_totals db mail max_words ws :
_process_mail decode html_events mail = Return ws ->
fst (totals (msg_db db)) = 0 \/ snd (totals (msg_db db)) = 0 ->
(Exists (fun w => is_Some (words_db db !! w)) ws ->
 probe decode html_events db mail max_words = Raise ZeroDivisionError
 \/ fst (totals (msg_db db)) <> 0
    /\ probe decode html_events db mail max_words = Raise OverflowError)
/\ (Forall (fun w => words_db db !! w = None) ws ->
    probe decode html_events db mail max_words = Return Float.lit_0_5).
Proof.
intros Hws Hz. split; [|by apply probe_no_known_token].
intros Hex. rewrite (probe_unfold _ _ _ _ Hws).
destruct (collect_zero_total (words_db db) _ _ ws [] Hz Hex) as [-> | [? ->]];
  [by left|by right].
Qed.

(** C5 as amended. With both totals positive, a token stored with both
  counts zero gets no probability: [0.0 / (0.0 + 0.0)] raises
  [ZeroDivisionError], and [probe] returns no value for a message that
  has such a token (it raises there, or at an earlier token). *)
Theorem probe_zero_counts db mail max_words ws w day :
_process_mail decode html_events mail = Return ws ->
w ∈ ws ->
words_db db !! w = Some (day, 0, 0) ->
0 < fst (totals (msg_db db)) ->
0 < snd (totals (msg_db db)) ->
word_probability 0 0 (fst (totals (msg_db db))) (snd (totals (msg_db db)))
= Raise ZeroDivisionError
/\ (probe decode html_events db mail max_words = Raise ZeroDivisionError
    \/ probe decode html_events db mail max_words = Raise OverflowError).
Proof.
intros Hws Hin Hw Hs Hh.
pose proof (word_probability_zero_counts _ _ Hs Hh) as Hp.
split; [done|]. rewrite (probe_unfold _ _ _ _ Hws).
pose proof (collect_raises_at (words_db db) (fst (totals (msg_db db)))
    (snd (totals (msg_db db))) ws [] w day 0 0 Hin Hw) as Hr.
rewrite Hp in Hr. specialize (Hr I).
destruct (collect _ _ _ ws []) as [all_p|e] eqn:Hc; [done|].
destruct (collect_raise _ _ _ _ _ _ Hc) as [-> | ->]; [by left|by right].
Qed.

(** C9 as amended. [probe] goes through every occurrence of a token, and
  each occurrence of a token of the store adds one probability to
  [all_p]. Removing duplicate tokens leaves the result unchanged when no
  token of the store occurs twice in the message: only the repetition of
  unknown tokens is without effect. *)
Theorem probe_duplicates_of_unknown db mail mail' max_words ws :
_process_mail decode html_events mail = Return ws ->
_process_mail decode html_events mail' = Return (remove_dups ws) ->
NoDup (filter (fun w => is_Some (words_db db !! w)) ws) ->
probe decode html_events db mail' max_words
= probe decode html_events db mail max_words.
Proof.
intros Hws Hws' Hnd.
rewrite (probe_unfold _ _ _ _ Hws), (probe_unfold _ _ _ _ Hws').
rewrite (collect_filter _ _ _ ws), (collect_filter _ _ _ (remove_dups ws)).
f_equal. f_equal. clear Hws Hws'.
induction ws as [|w ws IH]; [done|].
rewrite filter_cons in Hnd. cbn [remove_dups].
destruct (decide_rel elem_of w ws) as [Hin|Hin].
- rewrite filter_cons.
  destruct (decide (is_Some (words_db db !! w))) as [Hk|Hk].
  + apply NoDup_cons in Hnd as [Hnin _]. destruct Hnin.
    by apply list_elem_of_filter.
  + by apply IH.
- rewrite !filter_cons.
  destruct (decide (is_Some (words_db db !! w))) as [Hk|Hk].
  + apply NoDup_cons in Hnd as [_ Hnd]. f_equal. by apply IH.
  + by apply IH.
Qed.

End ProbeFacts.

(** C6. The docstring of [probe] promises a float [0 < x < 1], and the
    clamp of each probability to [0.00001, 0.99999] is there for that. In
    binary64 it is not enough: with four tokens at 0.99999 the product
    [p2] is about 1e-20, [p1 + p2] rounds to [p1], and [probe] returns
    exactly 1.0. *)
Theorem probe_four_spam_tokens_is_one :
  probe Sample.decode Sample.html_events Sample.viagra_stores
    Sample.viagra4_mail 20
  = Return Float.one
  /\ Float.ltb Float.one Float.one = false.
Proof. split; vm_compute; reflexivity. Qed.

(** The clamp, and the end-to-end example of the specification. *)
Example word_probability_all_spam :
  word_probability 10 0 10 10 = Return Float.lit_0_99999.
Proof. vm_compute. reflexivity. Qed.

Example word_probability_all_ham :
  word_probability 0 10 10 10 = Return Float.lit_0_00001.
Proof. vm_compute. reflexivity. Qed.

Example probe_one_spam_token :
  probe Sample.decode Sample.html_events Sample.viagra_stores
    Sample.viagra_mail 20
  = Return Float.lit_0_99999.
Proof. vm_compute. reflexivity. Qed.

(** ** The order of floats *)

Lemma ltb_lex (x y : float) :
  Float.is_nan x = false -> Float.is_nan y = false ->
  Float.ltb x y = true <-> lex_lt (float_code x) (float_code y).
Proof.
  intros Hx Hy. unfold Float.ltb, SFltb.
  destruct x as [sx|sx| |sx mx ex], y as [sy|sy| |sy my ey];
    try discriminate; cbn [SFcompare float_code lex_lt];
    try (destruct sx); try (destruct sy); cbn [lex_lt];
    try (split; [discriminate|lia]);
    try (split; [lia|done]).
  - change (PosDef.Pos.compare_cont Eq mx my) with (Pos.compare mx my).
    destruct (Z.compare_spec ex ey), (Pos.compare_spec mx my);
      cbn; split; try discriminate; try lia; try done.
  - change (PosDef.Pos.compare_cont Eq mx my) with (Pos.compare mx my).
    destruct (Z.compare_spec ex ey), (Pos.compare_spec mx my);
      cbn; split; try discriminate; try lia; try done.
Qed.

Lemma leb_lex (x y : float) :
  Float.is_nan x = false -> Float.is_nan y = false ->
  float_leb x y = true <-> ~ lex_lt (float_code y) (float_code x).
Proof.
  intros Hx Hy. unfold float_leb, SFleb.
  destruct x as [sx|sx| |sx mx ex], y as [sy|sy| |sy my ey];
    try discriminate; cbn [SFcompare float_code lex_lt];
    try (destruct sx); try (destruct sy); cbn [lex_lt];
    try (split; [discriminate|lia]);
    try (split; [lia|done]).
  - change (PosDef.Pos.compare_cont Eq mx my) with (Pos.compare mx my).
    destruct (Z.compare_spec ex ey), (Pos.compare_spec mx my);
      cbn; split; try discriminate; try lia; try done.
  - change (PosDef.Pos.compare_cont Eq mx my) with (Pos.compare mx my).
    destruct (Z.compare_spec ex ey), (Pos.compare_spec mx my);
      cbn; split; try discriminate; try lia; try done.
Qed.

Lemma leb_not_nan (x y : float) :
  float_leb x y = true -> Float.is_nan x = false /\ Float.is_nan y = false.
Proof. by destruct x, y. Qed.

Lemma ltb_not_nan (x y : float) :
  Float.ltb x y = true -> Float.is_nan x = false /\ Float.is_nan y = false.
Proof. by destruct x, y. Qed.

Lemma lex_lt_asym (a b : Z * Z * Z) : lex_lt a b -> ~ lex_lt b a.
Proof. destruct a as [[a1 a2] a3], b as [[b1 b2] b3]. cbn. lia. Qed.

Lemma lex_le_trans (a b c : Z * Z * Z) :
  ~ lex_lt b a -> ~ lex_lt c b -> ~ lex_lt c a.
Proof.
  destruct a as [[a1 a2] a3], b as [[b1 b2] b3], c as [[c1 c2] c3]. cbn. lia.
Qed.

(** On floats that are not NaN, [<=] is a total preorder and [<] is its
    strict part. *)
Lemma ltb_leb (x y : float) : Float.ltb x y = true -> float_leb x y = true.
Proof.
  intros Hlt. destruct (ltb_not_nan _ _ Hlt) as [Hx Hy].
  apply leb_lex; [done..|]. apply lex_lt_asym. by apply ltb_lex.
Qed.

Lemma not_ltb_leb (x y : float) :
  Float.is_nan x = false -> Float.is_nan y = false ->
  Float.ltb y x = false -> float_leb x y = true.
Proof.
  intros Hx Hy Hlt. apply leb_lex; [done..|].
  intros Hl. apply ltb_lex in Hl; [|done..]. congruence.
Qed.

Lemma leb_trans (x y z : float) :
  float_leb x y = true -> float_leb y z = true -> float_leb x z = true.
Proof.
  intros Hxy Hyz.
  destruct (leb_not_nan _ _ Hxy) as [Hx Hy].
  destruct (leb_not_nan _ _ Hyz) as [_ Hz].
  apply leb_lex; [done..|].
  apply leb_lex in Hxy; [|done..]. apply leb_lex in Hyz; [|done..].
  by eapply lex_le_trans.
Qed.

(** *** Rounding never produces a NaN *)

Lemma iter_pos_invariant {A : Type} (P : A -> Prop) (f : A -> A) :
  (forall x, P x -> P (f x)) ->
  forall n x, P x -> P (SpecFloat.iter_pos f n x).
Proof.
  intros Hf. induction n as [n IH|n IH|]; intros x Hx; cbn; auto.
Qed.

Lemma shr_1_nonneg mrs : 0 <= shr_m mrs -> 0 <= shr_m (shr_1 mrs).
Proof.
  destruct mrs as [m r s]. cbn.
  destruct m as [|[p|p|]|[p|p|]]; cbn; lia.
Qed.

Lemma shr_nonneg mrs e n : 0 <= shr_m mrs -> 0 <= shr_m (fst (shr mrs e n)).
Proof.
  intros Hm. unfold shr. destruct n; cbn; [done| |done].
  by apply (iter_pos_invariant (fun r => 0 <= shr_m r)); [apply shr_1_nonneg|].
Qed.

Lemma shr_record_of_loc_m m l : shr_m (shr_record_of_loc m l) = m.
Proof. by destruct l as [|[]]. Qed.

Lemma shr_fexp_nonneg prec emax m e l :
  0 <= m -> 0 <= shr_m (fst (shr_fexp prec emax m e l)).
Proof.
  intros Hm. unfold shr_fexp. apply shr_nonneg.
  by rewrite shr_record_of_loc_m.
Qed.

Lemma round_nearest_even_nonneg m l : 0 <= m -> 0 <= round_nearest_even m l.
Proof.
  intros Hm. unfold round_nearest_even.
  destruct l as [|[]]; [done| |done|lia].
  destruct (Z.even m); lia.
Qed.

Lemma binary_round_aux_not_nan prec emax sx mx ex lx :
  0 <= mx -> Float.is_nan (binary_round_aux prec emax sx mx ex lx) = false.
Proof.
  intros Hm. unfold binary_round_aux.
  pose proof (shr_fexp_nonneg prec emax mx ex lx Hm) as H1.
  destruct (shr_fexp prec emax mx ex lx) as [mrs' e']. cbn [fst] in H1.
  pose proof (shr_fexp_nonneg prec emax
                (round_nearest_even (shr_m mrs') (loc_of_shr_record mrs'))
                e' loc_Exact (round_nearest_even_nonneg _ _ H1)) as H2.
  destruct (shr_fexp prec emax _ e' loc_Exact) as [mrs'' e'']. cbn [fst] in H2.
  destruct (shr_m mrs''); [done| |lia].
  by destruct (e'' <=? emax - prec).
Qed.

Lemma binary_normalize_not_nan prec emax m e szero :
  Float.is_nan (binary_normalize prec emax m e szero) = false.
Proof.
  unfold binary_normalize, binary_round.
  destruct m as [|p|p]; [done|..];
    destruct (shl_align _ _ _) as [mz ez];
    by apply binary_round_aux_not_nan.
Qed.

Lemma sub_not_nan (x y : float) :
  is_finite x = true -> is_finite y = true ->
  Float.is_nan (Float.sub x y) = false.
Proof.
  unfold Float.sub.
  destruct x as [sx|sx| |sx mx ex], y as [sy|sy| |sy my ey]; try discriminate;
    intros _ _; cbn [SFsub]; try done.
  - by destruct sx, sy.
  - apply binary_normalize_not_nan.
Qed.

(** The key of a clamped probability is not a NaN. *)
Lemma clamped_finite p : clamped p -> is_finite p = true.
Proof.
  intros [-> | [-> | [Hlo Hhi]]]; [done..|].
  destruct p as [s|[]| |s m e]; try done.
Qed.

Lemma clamped_key_not_nan p :
  clamped p -> Float.is_nan (neutral_key p) = false.
Proof. intros Hp. apply sub_not_nan; [by apply clamped_finite|done]. Qed.

(** ** The sort and the slices *)

Section SortFacts.

Context {A : Type} (key : A -> float).

Lemma insert_sorted_perm x l : Permutation (insert_sorted key x l) (x :: l).
Proof.
induction l as [|y l IH]; cbn [insert_sorted]; [done|].
destruct (Float.ltb (key y) (key x)); [|done].
rewrite IH. apply perm_swap.
Qed.

Lemma sort_by_perm l : Permutation (sort_by key l) l.
Proof.
induction l as [|x l IH]; cbn [sort_by]; [done|].
rewrite insert_sorted_perm. by constructor.
Qed.

Lemma sort_by_length l : length (sort_by key l) = length l.
Proof. apply Permutation_length, sort_by_perm. Qed.

Let le_key (a b : A) : Prop := float_leb (key a) (key b) = true.
Let valid (a : A) : Prop := Float.is_nan (key a) = false.

Lemma insert_sorted_sorted x l :
valid x -> Forall valid l ->
StronglySorted le_key l -> StronglySorted le_key (insert_sorted key x l).
Proof.
intros Hx Hl Hs. induction Hs as [|y l Hs IH Hy]; cbn [insert_sorted].
- repeat constructor.
- apply Forall_cons in Hl as [Hvy Hl].
  destruct (Float.ltb (key y) (key x)) eqn:Hlt.
  + constructor; [by apply IH|].
    rewrite insert_sorted_perm. constructor; [|done].
    by apply ltb_leb.
  + assert (le_key x y) as Hxy by by apply not_ltb_leb.
    constructor; [by constructor|].
    constructor; [done|].
    eapply Forall_impl; [exact Hy|].
    intros z Hyz. by eapply leb_trans.
Qed.

Lemma sort_by_sorted l :
Forall valid l -> StronglySorted le_key (sort_by key l).
Proof.
induction 1 as [|x l Hx Hl IH]; cbn [sort_by]; [constructor|].
apply insert_sorted_sorted; [done| |done].
by rewrite sort_by_perm.
Qed.

Lemma sorted_app_le l1 l2 a b :
StronglySorted le_key (l1 ++ l2) -> a ∈ l1 -> b ∈ l2 -> le_key a b.
Proof.
induction l1 as [|x l1 IH]; cbn [app]; intros Hs Ha Hb.
- by apply elem_of_nil in Ha.
- apply StronglySorted_inv in Hs as [Hs Hx].
  apply elem_of_cons in Ha as [->|Ha]; [|by apply IH].
  rewrite Forall_forall in Hx. apply Hx.
  apply elem_of_app. by right.
Qed.

End SortFacts.

Section SliceFacts.

Context {A : Type}.

(** [l[-n:]] for [n] from 1 to the length: the last [n] elements. *)
Lemma slice_from_last (n : Z) (l : list A) :
1 <= n <= Z.of_nat (length l) ->
slice_from (- n) l = drop (length l - Z.to_nat n) l.
Proof.
intros Hn. unfold slice_from, slice_index.
rewrite (proj2 (Z.ltb_lt (- n) 0)) by lia. f_equal. lia.
Qed.

(** [l[:n]] for [n] from 0 to the length: the first [n] elements. *)
Lemma slice_to_first (n : Z) (l : list A) :
0 <= n <= Z.of_nat (length l) ->
slice_to n l = take (Z.to_nat n) l.
Proof.
intros Hn. unfold slice_to, slice_index.
rewrite (proj2 (Z.ltb_ge n 0)) by lia. f_equal. lia.
Qed.

(** [l[-0:]] is [l[0:]], the whole list. *)
Lemma slice_from_zero (l : list A) : slice_from (- 0) l = l.
Proof. unfold slice_from, slice_index. cbn. by rewrite Z.min_l by lia. Qed.

Lemma slice_to_zero (l : list A) : slice_to 0 l = [].
Proof.
unfold slice_to, slice_index. cbn. by rewrite Z.min_l by lia.
Qed.

End SliceFacts.

(** ** The probabilities that [probe] collects *)

Lemma word_probability_clamped spam_no ham_no spam_total ham_total p :
  word_probability spam_no ham_no spam_total ham_total = Return p -> clamped p.
Proof.
  unfold word_probability, mbind, result_bind.
  destruct (Float.int_truediv spam_no spam_total) as [pr_w_s|]; [|done].
  destruct (Float.int_truediv ham_no ham_total) as [pr_w_h|]; [|done].
  destruct (Float.truediv _ _) as [pr_s_w|]; [|done].
  intros [= <-]. unfold Float.min.
  destruct (Float.ltb pr_s_w Float.lit_0_99999) eqn:Hhi.
  - unfold Float.max.
    destruct (Float.ltb Float.lit_0_00001 pr_s_w) eqn:Hlo.
    + right. by right.
    + by left.
  - right. by left.
Qed.

Lemma collect_clamped words_db spam_total ham_total ws acc all_p :
  collect words_db spam_total ham_total ws acc = Return all_p ->
  Forall clamped acc -> Forall clamped all_p.
Proof.
  revert acc. induction ws as [|w ws IH]; intros acc; cbn [collect].
  - by intros [= <-].
  - destruct (words_db !! w) as [[[d s] h]|]; [|apply IH].
    destruct (word_probability s h spam_total ham_total) as [p|] eqn:Hp;
      [|done].
    cbn. intros Hc Hacc. apply (IH _ Hc).
    apply Forall_app. split; [done|].
    apply (proj2 (Forall_singleton clamped p)).
    exact (word_probability_clamped _ _ _ _ _ Hp).
Qed.

(** The selection, for a list whose keys are not NaN. *)
Lemma select_extremes (max_words : Z) (all_p : list float) :
  Forall (fun p => Float.is_nan (neutral_key p) = false) all_p ->
  1 <= max_words ->
  max_words * 2 < Z.of_nat (length all_p) ->
  exists low mid high,
    sort_by neutral_key all_p = low ++ mid ++ high
    /\ Permutation (low ++ mid ++ high) all_p
    /\ StronglySorted key_le (low ++ mid ++ high)
    /\ Z.of_nat (length low) = max_words
    /\ Z.of_nat (length high) = max_words
    /\ select max_words all_p = high ++ low
    /\ (forall a b, a ∈ low -> b ∈ mid ++ high -> key_le a b)
    /\ (forall a b, a ∈ low ++ mid -> b ∈ high -> key_le a b).
Proof.
  intros Hnan Hmw Hlen.
  set (s := sort_by neutral_key all_p).
  assert (length s = length all_p) as Hls by apply sort_by_length.
  set (n := Z.to_nat max_words).
  set (k := (length s - n)%nat).
  assert (StronglySorted key_le s) as Hsorted by by apply sort_by_sorted.
  assert (s = take n s ++ drop n (take k s) ++ drop k s) as Hs.
  { rewrite (app_assoc (take n s)).
    replace (take n s) with (take n (take k s))
      by (rewrite take_take; f_equal; lia).
    by rewrite !take_drop. }
  exists (take n s), (drop n (take k s)), (drop k s).
  rewrite <- Hs. split; [done|]. split; [apply sort_by_perm|].
  split; [done|]. split; [rewrite length_take; lia|].
  split; [rewrite length_drop; lia|].
  split.
  { unfold select. rewrite (proj2 (Z.ltb_lt _ _)) by done. fold neutral_key.
    fold s. rewrite slice_from_last, slice_to_first by lia. done. }
  split.
  - intros a b Ha Hb. rewrite Hs in Hsorted.
    by eapply (sorted_app_le neutral_key).
  - intros a b Ha Hb. rewrite Hs, app_assoc in Hsorted.
    by eapply (sorted_app_le neutral_key).
Qed.

(** The selection in [probe] for [max_words] at least 1: when more than
    [2 * max_words] probabilities have been collected, they are sorted by
    the key [n - 0.5] (a stable sort), and the [max_words] last followed
    by the [max_words] first of the sorted list go to the products,
    exactly [2 * max_words] of them: no other probability has a key above
    that of one of the last, or below that of one of the first. When
    [2 * max_words] or fewer have been collected, all go to the products
    in the order of the tokens. *)
Lemma probe_selects_extremes words_db spam_total ham_total ws all_p
    (max_words : Z) :
  collect words_db spam_total ham_total ws [] = Return all_p ->
  1 <= max_words ->
  (Z.of_nat (length all_p) <= max_words * 2 -> select max_words all_p = all_p)
  /\ (max_words * 2 < Z.of_nat (length all_p) ->
      Z.of_nat (length (select max_words all_p)) = max_words * 2
      /\ exists low mid high,
           sort_by neutral_key all_p = low ++ mid ++ high
           /\ Permutation (low ++ mid ++ high) all_p
           /\ StronglySorted key_le (low ++ mid ++ high)
           /\ Z.of_nat (length low) = max_words
           /\ Z.of_nat (length high) = max_words
           /\ select max_words all_p = high ++ low
           /\ (forall a b, a ∈ low -> b ∈ mid ++ high -> key_le a b)
           /\ (forall a b, a ∈ low ++ mid -> b ∈ high -> key_le a b)).
Proof.
  intros Hc Hmw. split.
  - intros Hlen. unfold select. by rewrite (proj2 (Z.ltb_ge _ _)) by done.
  - intros Hlen.
    assert (Forall (fun p => Float.is_nan (neutral_key p) = false) all_p)
      as Hnan.
    { eapply Forall_impl; [by eapply collect_clamped|].
      apply clamped_key_not_nan. }
    destruct (select_extremes max_words all_p Hnan Hmw Hlen)
      as (low & mid & high & H1 & H2 & H3 & H4 & H5 & H6 & H7 & H8).
    split; [rewrite H6, length_app; lia|].
    by exists low, mid, high.
Qed.

(** C7. The spec asks that, when more than [2 * maxWords] probabilities
    have been collected, exactly [2 * maxWords] of them go to the
    products, and the docstring of [probe] calls [max_words] the number of
    words used. The code does so from [max_words = 1] on (lemma above),
    but not for [max_words = 0]: [all_p[-0:]] is [all_p[0:]], the whole
    list, so every collected probability goes to the products, where none
    should; one token at 0.75 then scores 0.75 and not 0.5. *)
Theorem select_max_words_zero_keeps_all :
  (forall all_p : list float,
     select 0 all_p = sort_by neutral_key all_p
     /\ length (select 0 all_p) = length all_p)
  /\ collect (words_db Sample.offer_stores) 1 1 ["offer"] []
     = Return [Float.literal 75 100]
  /\ probe Sample.decode Sample.html_events Sample.offer_stores
       Sample.offer_mail 0 = Return (Float.literal 75 100).
Proof.
  split; [|split; vm_compute; reflexivity].
  intros all_p.
  assert (select 0 all_p = sort_by neutral_key all_p) as Hsel.
  { unfold select. destruct all_p as [|p all_p]; [done|].
    rewrite (proj2 (Z.ltb_lt (0 * 2) _)) by (cbn [length]; lia).
    fold neutral_key.
    by rewrite slice_from_zero, slice_to_zero, app_nil_r. }
  split; [done|]. rewrite Hsel. apply sort_by_length.
Qed.

(** ** The tokenizer *)

Lemma append_cons (c : ascii) (s t : string) :
  String c s +:+ t = String c (s +:+ t).
Proof. reflexivity. Qed.

Lemma append_nil_l (s : string) : "" +:+ s = s.
Proof. reflexivity. Qed.

Lemma append_nil_r (s : string) : s +:+ "" = s.
Proof.
  induction s as [|c s IH]; [done|]. by rewrite append_cons, IH.
Qed.

Lemma append_assoc (s1 s2 s3 : string) :
  (s1 +:+ s2) +:+ s3 = s1 +:+ (s2 +:+ s3).
Proof.
  induction s1 as [|c s1 IH]; [done|]. by rewrite !append_cons, IH.
Qed.

Lemma append_char (s : string) (c : ascii) (t : string) :
  (s +:+ String c "") +:+ t = s +:+ String c t.
Proof. by rewrite append_assoc. Qed.

Lemma string_forall_append P (s1 s2 : string) :
  string_forall P (s1 +:+ s2) = string_forall P s1 && string_forall P s2.
Proof.
  induction s1 as [|c s1 IH]; [done|].
  rewrite append_cons. cbn. by rewrite IH, andb_assoc.
Qed.

Lemma append_not_empty (s : string) (c : ascii) : s +:+ String c "" <> "".
Proof. by destruct s. Qed.

Lemma inner_nonempty_tail p l : inner_nonempty (p :: l) -> inner_nonempty l.
Proof. destruct l as [|q l]; cbn; [done|]. by intros [_ ?]. Qed.

Lemma inner_nonempty_cons p l :
  p <> "" -> inner_nonempty l -> inner_nonempty (p :: l).
Proof. by destruct l. Qed.

(** What [re_split_aux] returns, outside and inside a separator. *)
Lemma re_split_aux_pieces (text : string) :
  (forall cur, word_only cur ->
     exists seps,
       length (re_split_aux false cur text) = S (length seps)
       /\ interleave (re_split_aux false cur text) seps = cur +:+ text
       /\ Forall word_only (re_split_aux false cur text)
       /\ Forall separator seps
       /\ inner_nonempty (tail (re_split_aux false cur text))
       /\ (cur <> "" -> inner_nonempty (re_split_aux false cur text)))
  /\ (exists pre rest seps,
        text = pre +:+ rest
        /\ string_forall (fun c => negb (is_word_char c)) pre = true
        /\ length (re_split_aux true "" text) = S (length seps)
        /\ interleave (re_split_aux true "" text) seps = rest
        /\ Forall word_only (re_split_aux true "" text)
        /\ Forall separator seps
        /\ inner_nonempty (re_split_aux true "" text)).
Proof.
  induction text as [|c text [IHword IHsep]].
  - split.
    + intros cur Hcur. exists []. rewrite append_nil_r. cbn.
      repeat split; by repeat constructor.
    + exists "", "", []. cbn. repeat split; by repeat constructor.
  - split.
    + intros cur Hcur. cbn [re_split_aux].
      destruct (is_word_char c) eqn:Hc.
      * destruct (IHword (cur +:+ String c "")) as (seps & H1 & H2 & H3 & H4 & H5 & H6).
        { unfold word_only. rewrite string_forall_append. cbn.
          by rewrite Hcur, Hc. }
        exists seps. rewrite append_char in H2.
        specialize (H6 (append_not_empty _ _)). done.
      * destruct IHsep as (pre & rest & seps & H1 & H2 & H3 & H4 & H5 & H6 & H7).
        exists (String c pre :: seps). cbn [length interleave tail].
        destruct (re_split_aux true "" text) as [|p r] eqn:Hr; [done|].
        rewrite H4, H1. repeat split; try done.
        -- by rewrite H3.
        -- by constructor.
        -- constructor; [|done]. split; [done|]. cbn. by rewrite Hc, H2.
    + cbn [re_split_aux]. destruct (is_word_char c) eqn:Hc.
      * destruct (IHword (String c "")) as (seps & H1 & H2 & H3 & H4 & H5 & H6).
        { unfold word_only. cbn. by rewrite Hc. }
        exists "", (String c text), seps. cbn [append].
        repeat split; try done. by apply H6.
      * destruct IHsep as (pre & rest & seps & H1 & H2 & H3 & H4 & H5 & H6 & H7).
        exists (String c pre), rest, seps. cbn [append string_forall].
        rewrite append_cons, Hc, H2, <- H1. done.
Qed.

Lemma re_split_W_splits (text : string) :
  split_on_separators text (re_split_W text).
Proof.
  destruct (re_split_aux_pieces text) as [Hword _].
  destruct (Hword "" eq_refl) as (seps & H1 & H2 & H3 & H4 & H5 & _).
  by exists seps.
Qed.

(** Reading through a word, then through a separator. *)
Lemma re_split_aux_word (p cur rest : string) :
  word_only p ->
  re_split_aux false cur (p +:+ rest) = re_split_aux false (cur +:+ p) rest.
Proof.
  revert cur. induction p as [|c p IH]; intros cur Hp.
  - by rewrite append_nil_l, append_nil_r.
  - unfold word_only in Hp. cbn in Hp. apply andb_prop in Hp as [Hc Hp].
    rewrite append_cons. cbn [re_split_aux].
    rewrite Hc, IH by done. by rewrite append_char.
Qed.

Lemma re_split_aux_in_separator (s rest : string) :
  string_forall (fun c => negb (is_word_char c)) s = true ->
  re_split_aux true "" (s +:+ rest) = re_split_aux true "" rest.
Proof.
  induction s as [|c s IH]; intros Hs; [done|].
  cbn in Hs. apply andb_prop in Hs as [Hc Hs].
  apply negb_true_iff in Hc.
  rewrite append_cons. cbn [re_split_aux]. rewrite Hc. by apply IH.
Qed.

Lemma re_split_aux_separator (s cur rest : string) :
  separator s ->
  re_split_aux false cur (s +:+ rest) = cur :: re_split_aux true "" rest.
Proof.
  intros [Hne Hs]. destruct s as [|c s]; [done|]. cbn in Hs.
  apply andb_prop in Hs as [Hc Hs]. apply negb_true_iff in Hc.
  rewrite append_cons. cbn [re_split_aux].
  rewrite Hc. by rewrite re_split_aux_in_separator.
Qed.

Lemma re_split_aux_leave_separator (c : ascii) (text : string) :
  is_word_char c = true ->
  re_split_aux true "" (String c text) = re_split_aux false "" (String c text).
Proof. intros Hc. cbn. by rewrite Hc. Qed.

Lemma interleave_head p ps seps :
  length (p :: ps) = S (length seps) ->
  exists rest, interleave (p :: ps) seps = p +:+ rest.
Proof.
  destruct seps as [|s seps]; cbn.
  - exists "". by rewrite append_nil_r.
  - intros _. destruct ps as [|q ps]; by eexists.
Qed.

(** The pieces of a split are those that [re_split_aux] finds. *)
Lemma re_split_aux_complete (seps : list string) :
  forall (p : string) (ps : list string) (cur : string),
    length (p :: ps) = S (length seps) ->
    Forall word_only (p :: ps) ->
    Forall separator seps ->
    inner_nonempty ps ->
    re_split_aux false cur (interleave (p :: ps) seps) = (cur +:+ p) :: ps.
Proof.
  induction seps as [|s seps IH]; intros p ps cur Hlen Hw Hs Hin.
  - destruct ps; [|done]. cbn [interleave].
    rewrite <- (append_nil_r p) at 1.
    rewrite re_split_aux_word by by inversion Hw. done.
  - destruct ps as [|q ps]; [done|]. cbn [interleave].
    apply Forall_cons in Hw as [Hp Hw]. apply Forall_cons in Hs as [Hs Hss].
    rewrite re_split_aux_word, re_split_aux_separator by done.
    f_equal. cbn in Hlen.
    destruct q as [|c q].
    + destruct ps as [|q' ps]; [|by destruct Hin].
      destruct seps; [|done]. done.
    + assert (is_word_char c = true) as Hc.
      { apply Forall_cons in Hw as [Hq _]. unfold word_only in Hq.
        cbn in Hq. by apply andb_prop in Hq as [? _]. }
      destruct (interleave_head (String c q) ps seps) as [rest Hrest];
        [cbn; lia|].
      rewrite Hrest at 1. rewrite append_cons.
      rewrite re_split_aux_leave_separator by done.
      rewrite <- append_cons, <- Hrest. rewrite IH; try done.
      * cbn. lia.
      * by eapply inner_nonempty_tail.
Qed.

Lemma split_on_separators_unique (text : string) (pieces : list string) :
  split_on_separators text pieces -> pieces = re_split_W text.
Proof.
  intros (seps & Hlen & <- & Hw & Hs & Hin).
  destruct pieces as [|p ps]; [done|]. unfold re_split_W.
  by rewrite re_split_aux_complete.
Qed.

(** C8. [_text_parse] is [splitWords] of the specification: its tokens are
    the pieces of the text between the maximal runs of characters that
    are not word characters (letters, digits, underscore), with those of
    length at most 3 left out, in the order of the text and with
    repetitions kept; the two examples are as stated. *)
Theorem text_parse_is_splitWords :
  (forall text tokens, splitWords_spec text tokens <-> _text_parse text = tokens)
  /\ _text_parse "Hello, world! foo" = ["Hello"; "world"]
  /\ _text_parse "" = [].
Proof.
  split; [|split; reflexivity].
  intros text tokens. split.
  - intros (pieces & Hsplit & ->).
    by rewrite (split_on_separators_unique _ _ Hsplit).
  - intros <-. exists (re_split_W text). split; [|done].
    apply re_split_W_splits.
Qed.

(** ** More on the tokenizer *)

(** X1. Every token of [_text_parse] is made of word characters only and
    has at least four characters. *)
Theorem text_parse_tokens_are_long_words (text t : string) :
  t ∈ _text_parse text -> word_only t /\ long_enough t.
Proof.
  unfold _text_parse. intros [Hlong Hin]%list_elem_of_filter.
  split; [|done].
  destruct (re_split_W_splits text) as (seps & _ & _ & Hw & _).
  rewrite Forall_forall in Hw. by apply Hw.
Qed.

Lemma filter_long_empty (l : list string) :
  filter (fun i => 3 < Z.of_nat (String.length i)) ("" :: l)
  = filter (fun i => 3 < Z.of_nat (String.length i)) l.
Proof. rewrite filter_cons. by rewrite decide_False by (cbn; lia). Qed.

(** After a separator the pieces that are kept are those of the rest of
    the text read from its start. *)
Lemma re_split_aux_restart (b : string) :
  filter (fun i => 3 < Z.of_nat (String.length i)) (re_split_aux true "" b)
  = filter (fun i => 3 < Z.of_nat (String.length i)) (re_split_aux false "" b).
Proof.
  destruct b as [|c b]; [done|]. cbn [re_split_aux].
  destruct (is_word_char c); [done|]. by rewrite filter_long_empty.
Qed.

Lemma re_split_aux_glue (a s b : string) :
  separator s ->
  forall (in_sep : bool) (cur : string),
    (in_sep = true -> cur = "") ->
    filter (fun i => 3 < Z.of_nat (String.length i))
      (re_split_aux in_sep cur (a +:+ s +:+ b))
    = filter (fun i => 3 < Z.of_nat (String.length i))
        (re_split_aux in_sep cur a)
      ++ _text_parse b.
Proof.
  intros Hs. unfold _text_parse, re_split_W.
  induction a as [|c a IH]; intros in_sep cur Hcur.
  - rewrite append_nil_l. cbn [re_split_aux].
    destruct in_sep.
    + rewrite (Hcur eq_refl), filter_long_empty.
      destruct Hs as [_ Hs].
      by rewrite re_split_aux_in_separator, re_split_aux_restart.
    + rewrite re_split_aux_separator by done.
      rewrite !filter_cons, re_split_aux_restart.
      by destruct (decide _).
  - rewrite append_cons. cbn [re_split_aux].
    destruct (is_word_char c).
    + by apply IH.
    + destruct in_sep.
      * by apply IH.
      * rewrite !filter_cons, IH by done. by destruct (decide _).
Qed.

(** X2. Two texts joined by a separator give the tokens of the first
    followed by the tokens of the second. *)
Theorem text_parse_joined (a s b : string) :
  separator s ->
  _text_parse (a +:+ s +:+ b) = _text_parse a ++ _text_parse b.
Proof.
  intros Hs. unfold _text_parse at 1 2, re_split_W.
  by apply re_split_aux_glue.
Qed.

(** X3. A text of word characters only is one token, kept if it has more
    than three characters: digits and underscores do not split it. *)
Theorem text_parse_one_word (text : string) :
  word_only text ->
  _text_parse text
  = if decide (long_enough text) then [text] else [].
Proof.
  intros Hw. unfold _text_parse, re_split_W.
  rewrite <- (append_nil_r text) at 1.
  rewrite re_split_aux_word by done. cbn [re_split_aux].
  rewrite append_nil_l, filter_cons, filter_nil. unfold long_enough.
  by destruct (decide _).
Qed.

(** ** The HTML handlers *)

Lemma script_is_not_img (tag : string) :
  is_script_or_template tag = true -> String.eqb tag "img" = false.
Proof.
  unfold is_script_or_template.
  intros [Ht|Ht]%orb_prop; apply String.eqb_eq in Ht; by subst.
Qed.

Lemma img_alt_words_raise attrs ws e :
  img_alt_words attrs ws = Raise e -> e = TypeError.
Proof.
  revert ws. induction attrs as [|[n v] attrs IH]; intros ws; cbn; [done|].
  destruct (String.eqb n "alt"); [|apply IH].
  destruct v as [s|]; cbn; [apply IH|by intros [= <-]].
Qed.

Lemma img_alt_words_bare attrs ws :
  has_bare_alt attrs -> img_alt_words attrs ws = Raise TypeError.
Proof.
  unfold has_bare_alt. revert ws.
  induction attrs as [|[n v] attrs IH]; intros ws Hin;
    [by apply elem_of_nil in Hin|].
  cbn [img_alt_words]. apply elem_of_cons in Hin as [[= <- <-]|Hin]; [done|].
  destruct (String.eqb n "alt"); [|by apply IH].
  destruct v as [s|]; cbn; [by apply IH|done].
Qed.


Lemma handle_starttag_raise self tag attrs e :
  handle_starttag self tag attrs = Raise e -> e = TypeError.
Proof.
  unfold handle_starttag. destruct (String.eqb tag "img"); [|done].
  destruct (img_alt_words attrs (words self)) eqn:Hw; cbn; [done|].
  intros [= <-]. by eapply img_alt_words_raise.
Qed.

Lemma handle_starttag_ignore self tag attrs self' :
  handle_starttag self tag attrs = Return self' ->
  ignore self' = ignore self + ignore_delta (StartTag tag attrs).
Proof.
  unfold handle_starttag. cbn [ignore_delta].
  destruct (String.eqb tag "img").
  - destruct (img_alt_words attrs (words self)); cbn; [|done].
    intros [= <-]. cbn. destruct (is_script_or_template tag); lia.
  - intros [= <-]. cbn. destruct (is_script_or_template tag); lia.
Qed.


(** X4. When [feed] returns, the counter [ignore] has gone up by one for
    each [script] or [template] start tag and down by one for each such
    end tag, whatever their order: it is not kept from going negative. *)
Theorem feed_ignore_counter self events self' :
  feed self events = Return self' ->
  ignore self' = ignore self + foldr (fun e n => ignore_delta e + n) 0 events.
Proof.
  revert self. induction events as [|[tag attrs|tag|data] events IH];
    intros self; cbn [feed foldr].
  - intros [= <-]. lia.
  - destruct (handle_starttag self tag attrs) as [self1|] eqn:Hs; cbn; [|done].
    intros Hf. rewrite (IH _ Hf), (handle_starttag_ignore _ _ _ _ Hs).
    cbn [ignore_delta]. lia.
  - intros Hf. rewrite (IH _ Hf). unfold handle_endtag. cbn [ignore_delta].
    destruct (is_script_or_template tag); cbn; lia.
  - intros Hf. rewrite (IH _ Hf). unfold handle_data. cbn [ignore_delta].
    destruct (ignore self =? 0); cbn; lia.
Qed.

(** X5. The text inside a [script] or [template] element is skipped, and
    the parser is afterwards as it was before the element, unless the
    counter was at -1 (after an end tag without a start tag), in which
    case the start tag brings it to 0. *)
Theorem feed_skips_script self tag attrs data events :
  is_script_or_template tag = true ->
  ignore self <> -1 ->
  feed self (StartTag tag attrs :: Data data :: EndTag tag :: events)
  = feed self events.
Proof.
  intros Htag Hig. cbn [feed]. unfold handle_starttag.
  rewrite (script_is_not_img _ Htag), Htag. cbn.
  unfold handle_data. cbn [ignore].
  rewrite (proj2 (Z.eqb_neq _ _)) by lia.
  unfold handle_endtag. rewrite Htag. cbn [words ignore].
  f_equal. destruct self as [ws ig]. cbn. f_equal. lia.
Qed.

Lemma feed_ignored_data self events :
  ignore self <> 0 ->
  Forall (fun e => is_data e = true) events ->
  feed self events = Return self.
Proof.
  intros Hig Hev. induction Hev as [|[tag attrs|tag|data] events He _ IH];
    try done.
  cbn [feed]. unfold handle_data.
  by rewrite (proj2 (Z.eqb_neq _ _)) by done.
Qed.

Section HtmlFacts.

Variable html_events : string -> list html_event.

(** X6. A [script] or [template] end tag that has no start tag leaves the
    counter at -1, and all the text that follows is dropped: such a
    document gives no token. *)
Theorem html_parse_after_stray_end_tag html tag events :
  html_events html = EndTag tag :: events ->
  is_script_or_template tag = true ->
  Forall (fun e => is_data e = true) events ->
  _html_parse html_events html = Return [].
Proof.
  intros Hev Htag Hdata. unfold _html_parse. rewrite Hev. cbn [feed].
  unfold handle_endtag. rewrite Htag.
  by rewrite feed_ignored_data.
Qed.

(** X7. An image whose [alt] attribute has no value makes [_html_parse]
    raise [TypeError], wherever the image is in the document. *)
Theorem html_parse_bare_alt html attrs :
  StartTag "img" attrs ∈ html_events html ->
  has_bare_alt attrs ->
  _html_parse html_events html = Raise TypeError.
Proof.
  intros Hin Hbare. unfold _html_parse.
  assert (forall self, feed self (html_events html) = Raise TypeError)
    as Hfeed; [|by rewrite Hfeed].
  induction (html_events html) as [|e events IH]; intros self;
    [by apply elem_of_nil in Hin|].
  apply elem_of_cons in Hin as [<-|Hin].
  - cbn [feed]. unfold handle_starttag. cbn [String.eqb Ascii.eqb Bool.eqb].
    by rewrite img_alt_words_bare.
  - destruct e as [tag attrs'|tag|data]; cbn [feed]; [|by apply IH..].
    destruct (handle_starttag self tag attrs') as [self'|e] eqn:Hs; cbn.
    + by apply IH.
    + by rewrite (handle_starttag_raise _ _ _ _ Hs).
Qed.



End HtmlFacts.

(** ** The feature extractor *)



Section MailFacts.

Variable decode : string -> string -> string.
Variable html_events : string -> list html_event.


Lemma walk_parts_no_html l html plain :
  Forall (fun p => is_html_part p = false) l ->
  fst (walk_parts decode l html plain) = html.
Proof.
  intros Hl. revert plain. induction Hl as [|p l Hp _ IH]; intros plain;
    [done|].
  cbn. unfold is_html_part in Hp. rewrite Hp.
  by destruct (String.eqb (get_content_type p) "text/plain").
Qed.

Lemma walk_parts_no_plain l html plain :
  Forall (fun p => is_plain_part p = false) l ->
  snd (walk_parts decode l html plain) = plain.
Proof.
  intros Hl. revert html. induction Hl as [|p l Hp _ IH]; intros html;
    [done|].
  cbn. unfold is_plain_part in Hp. rewrite Hp.
  by destruct (String.eqb (get_content_type p) "text/html").
Qed.






Lemma process_mail_unfold mail :
  _process_mail decode html_events mail
  = match walk_parts decode (walk mail) None None with
    | (None, None) => Return []
    | (Some (String a html'), None) =>
        ws ← _html_parse html_events (String a html');
        Return (header_words (items mail) ws ++ date_words mail)
    | (_, plain) =>
        ws ← _text_parse_opt plain;
        Return (header_words (items mail) ws ++ date_words mail)
    end.
Proof.
  unfold _process_mail, date_words.
  destruct (walk_parts decode (walk mail) None None) as [[[|a h]|] [pl|]];
    try done;
    repeat match goal with
    | |- context [_html_parse ?e ?h] => destruct (_html_parse e h)
    | |- context [date_hour ?m] => destruct (date_hour m)
    end; cbn; by rewrite ?app_nil_r.
Qed.

(** X9. A message with no [text/plain] and no [text/html] part gives no
    token at all: its header fields and its date are not looked at. *)
Theorem process_mail_no_body mail :
  Forall (fun p => is_html_part p = false /\ is_plain_part p = false)
    (walk mail) ->
  _process_mail decode html_events mail = Return [].
Proof.
  intros Hparts. rewrite process_mail_unfold.
  pose proof (walk_parts_no_html (walk mail) None None) as Hh.
  pose proof (walk_parts_no_plain (walk mail) None None) as Hp.
  destruct (walk_parts decode (walk mail) None None) as [html plain].
  cbn in Hh, Hp. rewrite Hh, Hp; [done|..];
    eapply Forall_impl; try exact Hparts; by intros ? [? ?].
Qed.







End MailFacts.

(** ** The ledger and its totals *)

Lemma totals_empty : totals ∅ = (0, 0).
Proof. unfold totals. apply map_fold_empty. Qed.

Lemma totals_insert_new (m : gmap string bool) (i : string) (b : bool) :
  m !! i = None ->
  totals (<[i := b]> m) = add_totals (totals m) (one_message b).
Proof.
  intros Hi. unfold totals. rewrite map_fold_insert_L; [|..|done].
  - destruct (map_fold _ _ m) as [s h]. unfold add_totals.
    destruct b; cbn; f_equal; lia.
  - intros j1 j2 [] [] [s h] _ _ _; cbn; f_equal; lia.
Qed.


Lemma totals_nonneg (m : gmap string bool) :
  0 <= fst (totals m) /\ 0 <= snd (totals m).
Proof.
  induction m as [|i b m Hi IH] using map_ind.
  - by rewrite totals_empty.
  - rewrite totals_insert_new by done.
    destruct (totals m) as [s h]. destruct b; cbn in *; lia.
Qed.

(** X14. The two totals that [probe] computes are counts: neither is
    negative, and together they are the number of entries of the
    ledger. *)
Theorem totals_count (m : gmap string bool) :
  0 <= fst (totals m)
  /\ 0 <= snd (totals m)
  /\ fst (totals m) + snd (totals m) = Z.of_nat (size m).
Proof.
  induction m as [|i b m Hi IH] using map_ind.
  - by rewrite totals_empty, map_size_empty.
  - rewrite totals_insert_new, map_size_insert_None by done.
    destruct (totals m) as [s h]. destruct b; cbn in *; lia.
Qed.

(** X15. No spam message in the ledger means a spam total of zero, and
    one spam entry makes it positive; the same for ham. *)
Theorem totals_zero_iff (m : gmap string bool) :
  (fst (totals m) = 0 <-> forall i, m !! i <> Some true)
  /\ (snd (totals m) = 0 <-> forall i, m !! i <> Some false).
Proof.
  induction m as [|i b m Hi [IHs IHh]] using map_ind.
  - rewrite totals_empty. split; split; try done; intros _ j;
      by rewrite lookup_empty.
  - rewrite totals_insert_new by done.
    destruct (totals_nonneg m) as [Hs Hh].
    destruct (totals m) as [s h]. cbn [fst snd] in *.
    split; split.
    + intros Hz j. destruct b; cbn in Hz; [lia|].
      destruct (decide (j = i)) as [->|Hne];
        [by rewrite lookup_insert_eq|].
      rewrite lookup_insert_ne by done. apply IHs. lia.
    + intros Hall. destruct b.
      * destruct (Hall i). by rewrite lookup_insert_eq.
      * cbn. rewrite Z.add_0_r. apply IHs. intros j Hj. apply (Hall j).
        rewrite lookup_insert_ne; [done|]. intros ->. congruence.
    + intros Hz j. destruct b; cbn in Hz; [|lia].
      destruct (decide (j = i)) as [->|Hne];
        [by rewrite lookup_insert_eq|].
      rewrite lookup_insert_ne by done. apply IHh. lia.
    + intros Hall. destruct b.
      * cbn. rewrite Z.add_0_r. apply IHh. intros j Hj. apply (Hall j).
        rewrite lookup_insert_ne; [done|]. intros ->. congruence.
      * destruct (Hall i). by rewrite lookup_insert_eq.
Qed.

(** ** More on [learn] *)

Section LearnMore.

Variable decode : string -> string -> string.
Variable html_events : string -> list html_event.
Variable today_ordinal : Z.


(** X17. For a message that the ledger does not hold, [learn] returns
    without an exception exactly when the extraction gives no token. *)
Theorem learn_new_returns_iff db mail spam :
  msg_db db !! message_id mail = None ->
  fst (learn decode html_events today_ordinal db mail spam) = Return tt
  <-> _process_mail decode html_events mail = Return [].
Proof.
  intros Hnew. rewrite learn_new by done. unfold learn_tokens.
  destruct (_process_mail decode html_events mail) as [[|w ws]|e].
  - done.
  - rewrite learn_words_cons. by split.
  - by split.
Qed.




(** *** [cmd_learn] *)

Lemma cmd_learn_words_db spam mails db :
  words_db (snd (cmd_learn decode html_events today_ordinal spam mails db))
  = words_db db.
Proof.
  revert db. induction mails as [|mail mails IH]; intros db; [done|].
  cbn [cmd_learn].
  pose proof (learn_words_db decode html_events today_ordinal db mail spam)
    as Hw.
  destruct (learn decode html_events today_ordinal db mail spam) as [r db1].
  specialize (IH db1).
  destruct (cmd_learn decode html_events today_ordinal spam mails db1)
    as [caught db2].
  cbn in *. congruence.
Qed.






(** X23. Learning does not change what [probe] knows about tokens: from
    stores with an empty token store, after any batch of [cmd_learn],
    [probe] returns 0.5 for every message that can be tokenized. *)
Theorem probe_after_cmd_learn spam mails db mail max_words ws :
  words_db db = ∅ ->
  _process_mail decode html_events mail = Return ws ->
  probe decode html_events
    (snd (cmd_learn decode html_events today_ordinal spam mails db))
    mail max_words
  = Return Float.lit_0_5.
Proof.
  intros Hempty Hws. eapply probe_no_known_token; [done|].
  rewrite cmd_learn_words_db, Hempty.
  apply Forall_forall. intros w _. apply lookup_empty.
Qed.

End LearnMore.

(** ** More on [probe] *)

(** X24. Every probability that [probe] collects lies between 0.00001
    and 0.99999, bounds included, whatever the counts and the totals. *)
Theorem word_probability_bounds spam_no ham_no spam_total ham_total p :
  word_probability spam_no ham_no spam_total ham_total = Return p ->
  float_leb Float.lit_0_00001 p = true
  /\ float_leb p Float.lit_0_99999 = true.
Proof.
  intros Hp. apply word_probability_clamped in Hp.
  destruct Hp as [-> | [-> | [Hlo Hhi]]]; [by split..|].
  split; by apply ltb_leb.
Qed.

Lemma collect_length words_db spam_total ham_total ws acc all_p :
  collect words_db spam_total ham_total ws acc = Return all_p ->
  length all_p
  = (length acc + length (filter (fun w => is_Some (words_db !! w)) ws))%nat.
Proof.
  revert acc. induction ws as [|w ws IH]; intros acc; cbn [collect].
  - intros [= <-]. cbn. lia.
  - rewrite filter_cons.
    destruct (words_db !! w) as [[[d s] h]|] eqn:Hw.
    + rewrite decide_True by done.
      destruct (word_probability s h spam_total ham_total) as [p|]; [|done].
      cbn. intros Hc. rewrite (IH _ Hc), length_app. cbn. lia.
    + rewrite decide_False by (by intros [? ?]). apply IH.
Qed.


Section ProbeMore.

Variable decode : string -> string -> string.
Variable html_events : string -> list html_event.

(** X25. [probe] only looks at the tokens that the token store holds:
    two messages whose tokens, once the unknown ones are left out, are
    the same sequence get the same result. *)
Theorem probe_ignores_unknown_tokens db mail1 mail2 max_words ws1 ws2 :
  _process_mail decode html_events mail1 = Return ws1 ->
  _process_mail decode html_events mail2 = Return ws2 ->
  filter (fun w => is_Some (words_db db !! w)) ws1
  = filter (fun w => is_Some (words_db db !! w)) ws2 ->
  probe decode html_events db mail1 max_words
  = probe decode html_events db mail2 max_words.
Proof.
  intros H1 H2 Hf.
  rewrite (probe_unfold _ _ _ _ _ _ H1), (probe_unfold _ _ _ _ _ _ H2).
  by rewrite (collect_filter _ _ _ ws1), (collect_filter _ _ _ ws2), Hf.
Qed.

(** X26. [max_words] has no effect when the message has at most
    [2 * max_words] occurrences of tokens of the store: any two such
    values give the same result. *)
Theorem probe_max_words_irrelevant db mail ws (max_words1 max_words2 : Z) :
  _process_mail decode html_events mail = Return ws ->
  Z.of_nat (length (filter (fun w => is_Some (words_db db !! w)) ws))
    <= max_words1 * 2 ->
  Z.of_nat (length (filter (fun w => is_Some (words_db db !! w)) ws))
    <= max_words2 * 2 ->
  probe decode html_events db mail max_words1
  = probe decode html_events db mail max_words2.
Proof.
  intros Hws H1 H2. rewrite !(probe_unfold _ _ _ _ _ _ Hws).
  destruct (collect _ _ _ ws []) as [all_p|e] eqn:Hc; [|done]. cbn.
  apply collect_length in Hc. cbn in Hc. rewrite <- Hc in H1, H2.
  unfold select.
  by rewrite !(proj2 (Z.ltb_ge _ _)) by done.
Qed.


(** *** [cmd_probe] *)

Lemma cmd_probe_loop_spec threshold db mails n_spams n_hams :
  cmd_probe_loop decode html_events threshold db mails n_spams n_hams
  = (map (fun mail =>
            probe_outcome_of threshold (probe decode html_events db mail 20))
       mails,
     n_spams
     + count_outcomes is_spam_outcome
         (map (fun mail =>
                 probe_outcome_of threshold
                   (probe decode html_events db mail 20)) mails),
     n_hams
     + count_outcomes is_ham_outcome
         (map (fun mail =>
                 probe_outcome_of threshold
                   (probe decode html_events db mail 20)) mails)).
Proof.
  unfold count_outcomes. revert n_spams n_hams.
  induction mails as [|mail mails IH]; intros n_spams n_hams.
  - cbn. repeat match goal with |- (_, _) = (_, _) => f_equal end; lia.
  - cbn [cmd_probe_loop map].
    destruct (probe decode html_events db mail 20) as [score|e].
    + cbn [probe_outcome_of]. destruct (Float.ltb threshold score).
      * rewrite IH, !filter_cons. cbn [is_spam_outcome is_ham_outcome].
        rewrite decide_True, decide_False by done.
        cbn [length]. rewrite Nat2Z.inj_succ.
        repeat match goal with |- (_, _) = (_, _) => f_equal end; lia.
      * rewrite IH, !filter_cons. cbn [is_spam_outcome is_ham_outcome].
        rewrite decide_False, decide_True by done.
        cbn [length]. rewrite Nat2Z.inj_succ.
        repeat match goal with |- (_, _) = (_, _) => f_equal end; lia.
    + rewrite IH, !filter_cons. cbn [probe_outcome_of].
      cbn [is_spam_outcome is_ham_outcome].
      by rewrite !decide_False by done.
Qed.

(** X28. [cmd_probe] prints one outcome for each message, in order: the
    result of [probe] on that message alone with [max_words = 20],
    whatever the option [--words]; an exception is caught and does not
    touch the other messages. Its two counters are the numbers of
    outcomes above and not above the threshold, and with the failures
    they add up to the number of messages. *)
Theorem cmd_probe_outcomes threshold mails db :
  let out :=
    map (fun mail =>
           probe_outcome_of threshold (probe decode html_events db mail 20))
      mails in
  cmd_probe decode html_events threshold mails db
  = (out, count_outcomes is_spam_outcome out,
     count_outcomes is_ham_outcome out)
  /\ count_outcomes is_spam_outcome out + count_outcomes is_ham_outcome out
     + count_outcomes is_failure out
     = Z.of_nat (length mails).
Proof.
  cbn zeta. split.
  - unfold cmd_probe. by rewrite cmd_probe_loop_spec.
  - unfold count_outcomes. induction mails as [|mail mails IH]; [done|].
    cbn [map length]. rewrite !filter_cons, Nat2Z.inj_succ.
    destruct (probe_outcome_of threshold _) as [score []|e];
      cbn [is_spam_outcome is_ham_outcome is_failure];
      repeat case_decide; try done; cbn [length];
      rewrite ?Nat2Z.inj_succ; lia.
Qed.

End ProbeMore.

(** ** [cmd_dump] *)

Lemma SFdiv_finite_not_nan prec emax sx mx ex sy my ey :
  Float.is_nan (SFdiv prec emax (S754_finite sx mx ex) (S754_finite sy my ey))
  = false.
Proof.
  cbn [SFdiv]. unfold SFdiv_core_binary.
  set (m' := match _ with Z0 => Z.pos mx | Z.pos _ => _ | Z.neg _ => 0 end).
  assert (0 <= m') as Hm'.
  { subst m'. destruct (_ - _ - _) eqn:Hs; [lia| |lia].
    by apply Z.shiftl_nonneg. }
  pose proof (Z.div_pos m' (Z.pos my) Hm' eq_refl) as Hq.
  unfold Z.div in Hq.
  destruct (Z.div_eucl m' (Z.pos my)) as [q r]. cbn [fst] in Hq.
  by apply binary_round_aux_not_nan.
Qed.

(** The quotient of two integers, when there is one, is finite. *)
Lemma int_truediv_finite a b q :
  Float.int_truediv a b = Return q -> is_finite q = true.
Proof.
  unfold Float.int_truediv.
  destruct (b =? 0); [done|].
  destruct (a =? 0); [by intros [= <-]|].
  pose proof (SFdiv_finite_not_nan Float.prec Float.emax (a <? 0)
                (Z.to_pos (Z.abs a)) 0 (b <? 0) (Z.to_pos (Z.abs b)) 0) as Hn.
  destruct (SFdiv _ _ _ _); try done; by intros [= <-].
Qed.

Lemma dump_rows_spec words_db spam_total ham_total keys l :
  dump_rows words_db spam_total ham_total keys = Return l ->
  map row_token l = keys
  /\ Forall (row_of_store words_db spam_total ham_total) l
  /\ Forall (fun n => Float.is_nan (dump_key n) = false) l.
Proof.
  revert l. induction keys as [|k keys IH]; intros l; cbn [dump_rows].
  - intros [= <-]. by repeat constructor.
  - destruct (words_db !! k) as [[[d s] h]|] eqn:Hk; [|done].
    destruct (Float.int_truediv s spam_total) as [a|] eqn:Ha; [|done].
    destruct (Float.int_truediv h ham_total) as [b|] eqn:Hb; [|done].
    destruct (dump_rows words_db spam_total ham_total keys) as [l'|];
      [|done].
    cbn. intros [= <-]. destruct (IH l' eq_refl) as (IH1 & IH2 & IH3).
    split; [cbn; by rewrite IH1|]. split.
    + constructor; [|done]. by exists d, s, h.
    + constructor; [|done]. cbn.
      apply sub_not_nan; by eapply int_truediv_finite.
Qed.

Lemma slice_to_take {A : Type} (n : Z) (l : list A) :
  0 <= n -> slice_to n l = take (Z.to_nat n) l.
Proof.
  intros Hn. unfold slice_to, slice_index.
  rewrite (proj2 (Z.ltb_ge n 0)) by lia.
  destruct (Z.le_gt_cases n (Z.of_nat (length l))).
  - f_equal. lia.
  - rewrite Z.min_r, Nat2Z.id by lia.
    by rewrite firstn_all, take_ge by lia.
Qed.

Lemma slice_from_drop {A : Type} (n : Z) (l : list A) :
  1 <= n -> slice_from (- n) l = drop (length l - Z.to_nat n) l.
Proof.
  intros Hn. unfold slice_from, slice_index.
  rewrite (proj2 (Z.ltb_lt (- n) 0)) by lia. f_equal. lia.
Qed.

(** X29. Until the ledger holds a spam and a ham message, [cmd_dump] of
    a token store that is not empty prints nothing: the division by the
    total that is zero raises for the first token ([ZeroDivisionError];
    [OverflowError] if the spam total is not zero and the spam count of
    that token is beyond the range of a float). *)
Theorem cmd_dump_zero_total (n_words : Z) k keys db :
  fst (totals (msg_db db)) = 0 \/ snd (totals (msg_db db)) = 0 ->
  is_Some (words_db db !! k) ->
  cmd_dump n_words (k :: keys) db = Raise ZeroDivisionError
  \/ fst (totals (msg_db db)) <> 0
     /\ cmd_dump n_words (k :: keys) db = Raise OverflowError.
Proof.
  intros Hz [[[d s] h] Hk]. unfold cmd_dump.
  destruct (totals (msg_db db)) as [st ht]. cbn [fst snd] in Hz.
  cbn [dump_rows]. rewrite Hk.
  destruct (Z.eq_dec st 0) as [->|Hst]; [by left|].
  destruct Hz as [?| ->]; [done|].
  destruct (Float.int_truediv s st) as [a|e] eqn:Ha.
  - by left.
  - destruct (int_truediv_raise _ _ _ Ha) as [-> | ->]; [by left|by right].
Qed.

(** X30. When [cmd_dump] prints, there is one row for each key of the
    token store, each with the two quotients of that token; the rows
    are sorted by the spam quotient minus the ham quotient. For
    [n.words] of 1 or more, the first block is the [n.words] first rows
    and the second block the [n.words] last ones, both the whole list
    (so every row twice) when there are no more than [n.words] rows; for
    [n.words = 0] the first block is empty and the second is the whole
    list. *)
Theorem cmd_dump_blocks (n_words : Z) keys db first last :
  cmd_dump n_words keys db = Return (first, last) ->
  exists l,
    Permutation (map row_token l) keys
    /\ Forall (row_of_store (words_db db) (fst (totals (msg_db db)))
                 (snd (totals (msg_db db)))) l
    /\ StronglySorted dump_le l
    /\ (0 <= n_words -> first = take (Z.to_nat n_words) l)
    /\ (1 <= n_words -> last = drop (length l - Z.to_nat n_words) l)
    /\ (n_words = 0 -> last = l).
Proof.
  unfold cmd_dump. destruct (totals (msg_db db)) as [st ht].
  destruct (dump_rows (words_db db) st ht keys) as [l|] eqn:Hl; [|done].
  cbn. intros [= <- <-].
  destruct (dump_rows_spec _ _ _ _ _ Hl) as (Hkeys & Hrows & Hnan).
  exists (sort_by dump_key l). split.
  { rewrite <- Hkeys. apply Permutation_map, sort_by_perm. }
  split.
  { by rewrite sort_by_perm. }
  split; [by apply sort_by_sorted|].
  split; [apply slice_to_take|].
  split; [apply slice_from_drop|].
  intros ->. apply slice_from_zero.
Qed.

(** ** The theorems at concrete inputs *)

Lemma learn_new_message_raises_witness :
  learn Sample.decode Sample.html_events Sample.today_ordinal
    Sample.empty_stores Sample.hello_mail true
  = (Raise (NameError "today"),
     {| words_db := ∅; msg_db := <["<m1@example.org>" := true]> ∅ |}).
Proof.
  apply (learn_new_message_raises Sample.decode Sample.html_events
           Sample.today_ordinal Sample.empty_stores Sample.hello_mail true
           "Hello" ["world"]).
  - reflexivity.
  - reflexivity.
Defined.

Lemma learn_relabel_keeps_counts_witness :
  learn Sample.decode Sample.html_events Sample.today_ordinal
    Sample.hello_ham Sample.hello_mail true
  = (Return tt,
     {| words_db := words_db Sample.hello_ham;
        msg_db := <["<m1@example.org>" := true]> (msg_db Sample.hello_ham) |}).
Proof.
  apply (learn_relabel_keeps_counts Sample.decode Sample.html_events
           Sample.today_ordinal Sample.hello_ham Sample.hello_mail).
  vm_compute. reflexivity.
Defined.

Lemma learn_raise_keeps_ledger_witness :
  msg_db (snd (learn Sample.decode Sample.html_events Sample.today_ordinal
                 Sample.empty_stores Sample.hello_mail true))
    !! "<m1@example.org>" = Some true.
Proof.
  refine (proj1 (proj2 (learn_raise_keeps_ledger Sample.decode
           Sample.html_events Sample.today_ordinal Sample.empty_stores
           Sample.hello_mail true (NameError "today")
           (snd (learn Sample.decode Sample.html_events
                   Sample.today_ordinal Sample.empty_stores
                   Sample.hello_mail true)) _))).
  vm_compute. reflexivity.
Defined.

Lemma probe_zero_totals_witness :
  (Exists (fun w => is_Some (words_db Sample.no_ledger_stores !! w))
     ["Hello"; "world"] ->
   probe Sample.decode Sample.html_events Sample.no_ledger_stores
     Sample.hello_mail 20 = Raise ZeroDivisionError
   \/ fst (totals (msg_db Sample.no_ledger_stores)) <> 0
      /\ probe Sample.decode Sample.html_events Sample.no_ledger_stores
           Sample.hello_mail 20 = Raise OverflowError)
  /\ (Forall (fun w => words_db Sample.no_ledger_stores !! w = None)
        ["Hello"; "world"] ->
      probe Sample.decode Sample.html_events Sample.no_ledger_stores
        Sample.hello_mail 20 = Return Float.lit_0_5).
Proof.
  apply (probe_zero_totals Sample.decode Sample.html_events
           Sample.no_ledger_stores Sample.hello_mail 20 ["Hello"; "world"]).
  - reflexivity.
  - left. reflexivity.
Defined.

(** C4 fails as stated: against the empty ledger, [probe] returns 0.5 for
    a message none of whose tokens is in the store. *)
Lemma probe_empty_ledger_returns_half :
  totals (msg_db Sample.empty_stores) = (0, 0)
  /\ probe Sample.decode Sample.html_events Sample.empty_stores
       Sample.hello_mail 20 = Return Float.lit_0_5
  /\ ~ raises (probe Sample.decode Sample.html_events Sample.empty_stores
                 Sample.hello_mail 20).
Proof. split; [reflexivity|]. split; [reflexivity|]. intros H. exact H. Qed.

Lemma probe_zero_counts_witness :
  word_probability 0 0 (fst (totals (msg_db Sample.zero_count_stores)))
    (snd (totals (msg_db Sample.zero_count_stores)))
  = Raise ZeroDivisionError
  /\ (probe Sample.decode Sample.html_events Sample.zero_count_stores
        Sample.hello_mail 20 = Raise ZeroDivisionError
      \/ probe Sample.decode Sample.html_events Sample.zero_count_stores
           Sample.hello_mail 20 = Raise OverflowError).
Proof.
  apply (probe_zero_counts Sample.decode Sample.html_events
           Sample.zero_count_stores Sample.hello_mail 20
           ["Hello"; "world"] "Hello" 737424).
  - reflexivity.
  - apply list_elem_of_here.
  - reflexivity.
  - vm_compute. reflexivity.
  - vm_compute. reflexivity.
Defined.

(** C5 fails as stated: with one spam and one ham message in the ledger,
    a token stored with both counts zero makes [probe] raise. *)
Lemma probe_zero_counts_raises :
  totals (msg_db Sample.zero_count_stores) = (1, 1)
  /\ words_db Sample.zero_count_stores !! "Hello" = Some (737424, 0, 0)
  /\ probe Sample.decode Sample.html_events Sample.zero_count_stores
       Sample.hello_mail 20 = Raise ZeroDivisionError.
Proof. repeat split; vm_compute; reflexivity. Qed.

Lemma probe_duplicates_of_unknown_witness :
  probe Sample.decode Sample.html_events Sample.offer_stores
    Sample.offer_hello_mail 20
  = probe Sample.decode Sample.html_events Sample.offer_stores
      Sample.offer_hello2_mail 20.
Proof.
  apply (probe_duplicates_of_unknown Sample.decode Sample.html_events
           Sample.offer_stores Sample.offer_hello2_mail
           Sample.offer_hello_mail 20 ["offer"; "hello"; "hello"]).
  - reflexivity.
  - vm_compute. reflexivity.
  - vm_compute. apply NoDup_singleton.
Defined.

(** C9 fails as stated: the token [offer] once gives 0.75, twice 0.9. *)
Lemma probe_duplicate_changes_score :
  _process_mail Sample.decode Sample.html_events Sample.offer2_mail
  = Return ["offer"; "offer"]
  /\ _process_mail Sample.decode Sample.html_events Sample.offer_mail
     = Return (remove_dups ["offer"; "offer"])
  /\ probe Sample.decode Sample.html_events Sample.offer_stores
       Sample.offer_mail 20 = Return (Float.literal 75 100)
  /\ probe Sample.decode Sample.html_events Sample.offer_stores
       Sample.offer2_mail 20 = Return (Float.literal 9 10)
  /\ probe Sample.decode Sample.html_events Sample.offer_stores
       Sample.offer_mail 20
     <> probe Sample.decode Sample.html_events Sample.offer_stores
          Sample.offer2_mail 20.
Proof.
  repeat split; try (vm_compute; reflexivity).
  intros H. vm_compute in H. discriminate H.
Qed.

Lemma probe_selects_extremes_witness :
  (Z.of_nat (length [Float.literal 75 100; Float.literal 25 100; Float.lit_0_5])
   <= 1 * 2 ->
   select 1 [Float.literal 75 100; Float.literal 25 100; Float.lit_0_5]
   = [Float.literal 75 100; Float.literal 25 100; Float.lit_0_5])
  /\ (1 * 2
      < Z.of_nat
          (length [Float.literal 75 100; Float.literal 25 100; Float.lit_0_5]) ->
      Z.of_nat
        (length
           (select 1
              [Float.literal 75 100; Float.literal 25 100; Float.lit_0_5]))
      = 1 * 2
      /\ exists low mid high,
           sort_by neutral_key
             [Float.literal 75 100; Float.literal 25 100; Float.lit_0_5]
           = low ++ mid ++ high
           /\ Permutation (low ++ mid ++ high)
                [Float.literal 75 100; Float.literal 25 100; Float.lit_0_5]
           /\ StronglySorted key_le (low ++ mid ++ high)
           /\ Z.of_nat (length low) = 1
           /\ Z.of_nat (length high) = 1
           /\ select 1
                [Float.literal 75 100; Float.literal 25 100; Float.lit_0_5]
              = high ++ low
           /\ (forall a b, a ∈ low -> b ∈ mid ++ high -> key_le a b)
           /\ (forall a b, a ∈ low ++ mid -> b ∈ high -> key_le a b)).
Proof.
  apply (probe_selects_extremes (words_db Sample.mixed_stores) 1 1
           Sample.mixed_tokens
           [Float.literal 75 100; Float.literal 25 100; Float.lit_0_5] 1).
  - vm_compute. reflexivity.
  - lia.
Defined.

(** ** The further properties at concrete inputs *)

Lemma text_parse_tokens_are_long_words_witness :
  word_only "Hello" /\ long_enough "Hello".
Proof.
  apply (text_parse_tokens_are_long_words "Hello, world! foo" "Hello").
  vm_compute. apply list_elem_of_here.
Defined.

Lemma text_parse_joined_witness :
  _text_parse ("Hello" +:+ ", " +:+ "world")
  = _text_parse "Hello" ++ _text_parse "world".
Proof.
  apply (text_parse_joined "Hello" ", " "world").
  split; [discriminate|reflexivity].
Defined.

Lemma text_parse_one_word_witness :
  _text_parse "under_score42"
  = if decide (long_enough "under_score42") then ["under_score42"] else [].
Proof. apply (text_parse_one_word "under_score42"). reflexivity. Defined.

Lemma feed_ignore_counter_witness :
  ignore {| words := ["Hello"; "there"; "nice"; "picture"]; ignore := 0 |}
  = ignore Sample.fresh_parser
    + foldr (fun e n => ignore_delta e + n) 0 (Sample.newsletter_events "").
Proof.
  apply (feed_ignore_counter Sample.fresh_parser
           (Sample.newsletter_events "")).
  reflexivity.
Defined.

Lemma feed_skips_script_witness :
  feed Sample.fresh_parser
    [ StartTag "script" []; Data "var total = 1000000;"; EndTag "script";
      Data "Hello there" ]
  = feed Sample.fresh_parser [ Data "Hello there" ].
Proof.
  apply (feed_skips_script Sample.fresh_parser "script" []
           "var total = 1000000;" [ Data "Hello there" ]).
  - reflexivity.
  - discriminate.
Defined.

Lemma html_parse_after_stray_end_tag_witness :
  _html_parse Sample.stray_end_events "<html>" = Return [].
Proof.
  apply (html_parse_after_stray_end_tag Sample.stray_end_events "<html>"
           "script" [ Data "Hello there" ]).
  - reflexivity.
  - reflexivity.
  - repeat constructor.
Defined.

Lemma html_parse_bare_alt_witness :
  _html_parse Sample.bare_alt_events "<html>" = Raise TypeError.
Proof.
  apply (html_parse_bare_alt Sample.bare_alt_events "<html>"
           [("src", Some "x.png"); ("alt", None)]).
  - apply list_elem_of_further, list_elem_of_here.
  - apply list_elem_of_further, list_elem_of_here.
Defined.


Lemma process_mail_no_body_witness :
  _process_mail Sample.decode Sample.html_events Sample.no_body_mail
  = Return [].
Proof.
  apply (process_mail_no_body Sample.decode Sample.html_events
           Sample.no_body_mail).
  repeat constructor.
Defined.





Lemma learn_new_returns_iff_witness :
  fst (learn Sample.decode Sample.html_events Sample.today_ordinal
         Sample.empty_stores Sample.no_body_mail true) = Return tt
  <-> _process_mail Sample.decode Sample.html_events Sample.no_body_mail
      = Return [].
Proof.
  apply (learn_new_returns_iff Sample.decode Sample.html_events
           Sample.today_ordinal Sample.empty_stores Sample.no_body_mail true).
  reflexivity.
Defined.


Lemma probe_after_cmd_learn_witness :
  probe Sample.decode Sample.html_events
    (snd (cmd_learn Sample.decode Sample.html_events Sample.today_ordinal
            true [Sample.hello_mail; Sample.offer_mail] Sample.empty_stores))
    Sample.hello_mail 20
  = Return Float.lit_0_5.
Proof.
  apply (probe_after_cmd_learn Sample.decode Sample.html_events
           Sample.today_ordinal true [Sample.hello_mail; Sample.offer_mail]
           Sample.empty_stores Sample.hello_mail 20 ["Hello"; "world"]).
  - reflexivity.
  - reflexivity.
Defined.

Lemma word_probability_bounds_witness :
  float_leb Float.lit_0_00001 Float.lit_0_99999 = true
  /\ float_leb Float.lit_0_99999 Float.lit_0_99999 = true.
Proof.
  apply (word_probability_bounds 10 0 10 10 Float.lit_0_99999).
  vm_compute. reflexivity.
Defined.

Lemma probe_ignores_unknown_tokens_witness :
  probe Sample.decode Sample.html_events Sample.offer_stores
    Sample.offer_hello_mail 20
  = probe Sample.decode Sample.html_events Sample.offer_stores
      Sample.offer_mail 20.
Proof.
  apply (probe_ignores_unknown_tokens Sample.decode Sample.html_events
           Sample.offer_stores Sample.offer_hello_mail Sample.offer_mail 20
           ["offer"; "hello"] ["offer"]).
  - reflexivity.
  - reflexivity.
  - vm_compute. reflexivity.
Defined.

Lemma probe_max_words_irrelevant_witness :
  probe Sample.decode Sample.html_events Sample.offer_stores
    Sample.offer2_mail 1
  = probe Sample.decode Sample.html_events Sample.offer_stores
      Sample.offer2_mail 20.
Proof.
  apply (probe_max_words_irrelevant Sample.decode Sample.html_events
           Sample.offer_stores Sample.offer2_mail ["offer"; "offer"] 1 20).
  - reflexivity.
  - vm_compute. discriminate.
  - vm_compute. discriminate.
Defined.


Lemma cmd_dump_zero_total_witness :
  cmd_dump 20 ["Hello"] Sample.no_ledger_stores = Raise ZeroDivisionError
  \/ fst (totals (msg_db Sample.no_ledger_stores)) <> 0
     /\ cmd_dump 20 ["Hello"] Sample.no_ledger_stores = Raise OverflowError.
Proof.
  apply (cmd_dump_zero_total 20 "Hello" [] Sample.no_ledger_stores).
  - left. reflexivity.
  - vm_compute. eexists. reflexivity.
Defined.

Lemma cmd_dump_blocks_witness :
  exists l,
    Permutation (map row_token l) Sample.mixed_tokens
    /\ Forall (row_of_store (words_db Sample.mixed_stores)
                 (fst (totals (msg_db Sample.mixed_stores)))
                 (snd (totals (msg_db Sample.mixed_stores)))) l
    /\ StronglySorted dump_le l
    /\ (0 <= 1 ->
        [("meeting", Float.of_Z 1, Float.of_Z 3)] = take (Z.to_nat 1) l)
    /\ (1 <= 1 ->
        [("offer", Float.of_Z 3, Float.of_Z 1)]
        = drop (length l - Z.to_nat 1) l)
    /\ (1 = 0 -> [("offer", Float.of_Z 3, Float.of_Z 1)] = l).
Proof.
  apply (cmd_dump_blocks 1 Sample.mixed_tokens Sample.mixed_stores
           [("meeting", Float.of_Z 1, Float.of_Z 3)]
           [("offer", Float.of_Z 3, Float.of_Z 1)]).
  vm_compute. reflexivity.
Defined.
